(** * rl_sched_mod: a Q-learning nice-value controller

    Shallow embedding of [rl_sched_mod.c] (the kernel module that samples
    every process once per interval, classifies its CPU-time delta, picks an
    action epsilon-greedily, renices the task and updates a per-pid Q-table)
    together with the properties of its learning and decision engine.

    Conventions of the embedding:
    - C integers are [Z]; every arithmetic result is reduced to the width of
      its C type ([to_long], [to_int], [to_u32], [to_u64]).  The kernel is
      built with wrapping signed arithmetic, so [long] and [int] wrap in two's
      complement.
    - [long qtable[NUM_STATES][NUM_ACTIONS]] is a list of rows, read and
      written by index.
    - The intrusive list [pid_table] is the list of its nodes, head first; a
      [struct pid_entry *] into it is the position of the node.
    - The environment (random numbers, allocator, host process list) and the
      effects (log lines, renice calls) are threaded through a state monad. *)

From Stdlib Require Import ZArith List Lia Bool.
From stdpp Require Import base option list.
Import ListNotations.

Local Open Scope Z_scope.

(* ===================================================================== *)
(** ** Machine integers *)
(* ===================================================================== *)

Module MachineInt.

Definition LONG_MIN : Z := - 2 ^ 63.
Definition LONG_MAX : Z := 2 ^ 63 - 1.

(** Two's-complement reduction of [z] to a signed [w]-bit integer. *)
Definition wrap_signed (w : Z) (z : Z) : Z :=
  (z + 2 ^ (w - 1)) mod 2 ^ w - 2 ^ (w - 1).

Definition to_long (z : Z) : Z := wrap_signed 64 z.
Definition to_int (z : Z) : Z := wrap_signed 32 z.
Definition to_u32 (z : Z) : Z := z mod 2 ^ 32.
Definition to_u64 (z : Z) : Z := z mod 2 ^ 64.

Definition in_long (z : Z) : Prop := LONG_MIN <= z <= LONG_MAX.
Definition in_u64 (z : Z) : Prop := 0 <= z < 2 ^ 64.

End MachineInt.
Export MachineInt.

(* ===================================================================== *)
(** ** RL definitions and the per-pid record *)
(* ===================================================================== *)

Definition NUM_STATES : Z := 3.
Definition NUM_ACTIONS : Z := 3.

Inductive rl_state : Type :=
| RL_STATE_LOW
| RL_STATE_MED
| RL_STATE_HIGH.

#[global] Instance rl_state_eq_dec : EqDecision rl_state.
Proof. solve_decision. Defined.

(** The enumerator values of [enum rl_state]. *)
Definition rl_state_value (s : rl_state) : Z :=
  match s with
  | RL_STATE_LOW => 0
  | RL_STATE_MED => 1
  | RL_STATE_HIGH => 2
  end.

(** [enum rl_action]; actions travel as [int] in the source. *)
Definition RL_DEC_NICE : Z := 0.
Definition RL_INC_NICE : Z := 1.
Definition RL_NOOP : Z := 2.

Record pid_entry : Type := mk_pid_entry {
  pid : Z;
  prev_runtime : Z;
  qtable : list (list Z);
  prev_state : rl_state;
  prev_action : Z
}.

(** [pe->qtable[s][a]] as an rvalue.  The source only indexes with
    [s] an enumerator and [0 <= a < NUM_ACTIONS]. *)
Definition qtable_get (q : list (list Z)) (s : rl_state) (a : Z) : Z :=
  default 0 (default [] (q !! Z.to_nat (rl_state_value s)) !! Z.to_nat a).

(** [pe->qtable[s][a] = v]. *)
Definition qtable_set (q : list (list Z)) (s : rl_state) (a : Z) (v : Z)
  : list (list Z) :=
  alter (fun row => <[Z.to_nat a := v]> row) (Z.to_nat (rl_state_value s)) q.

(** What [kzalloc] followed by [memset (e->qtable, 0, ...)] leaves. *)
Definition zero_qtable : list (list Z) :=
  replicate (Z.to_nat NUM_STATES) (replicate (Z.to_nat NUM_ACTIONS) 0).

Definition set_prev_runtime (v : Z) (e : pid_entry) : pid_entry :=
  mk_pid_entry (pid e) v (qtable e) (prev_state e) (prev_action e).
Definition set_qtable (q : list (list Z)) (e : pid_entry) : pid_entry :=
  mk_pid_entry (pid e) (prev_runtime e) q (prev_state e) (prev_action e).
Definition set_prev_state (s : rl_state) (e : pid_entry) : pid_entry :=
  mk_pid_entry (pid e) (prev_runtime e) (qtable e) s (prev_action e).
Definition set_prev_action (a : Z) (e : pid_entry) : pid_entry :=
  mk_pid_entry (pid e) (prev_runtime e) (qtable e) (prev_state e) a.

(** The part of the host's [struct task_struct] that the module touches.
    [nice] stands for what [task_nice] returns and [set_user_nice] sets. *)
Record task_struct : Type := mk_task {
  task_pid : Z;
  exit_state : Z;
  sum_exec_runtime : Z;
  nice : Z
}.

(** The host's [EXIT_DEAD] and [EXIT_ZOMBIE], with their values in
    linux/sched.h; no property below depends on the values. *)
Definition EXIT_DEAD : Z := 16.
Definition EXIT_ZOMBIE : Z := 32.

Definition set_nice (n : Z) (t : task_struct) : task_struct :=
  mk_task (task_pid t) (exit_state t) (sum_exec_runtime t) n.

(** Module parameters. *)
Record params : Type := mk_params {
  alpha_permille : Z;
  gamma_permille : Z;
  epsilon_permille : Z;
  interval_ms : Z;
  action_step : Z
}.

Definition default_params : params := mk_params 200 900 200 1000 5.

(* ===================================================================== *)
(** ** Kernel state and the monad of the worker *)
(* ===================================================================== *)

(** What the module makes observable: its [pr_info] line and the
    [set_user_nice] call of [apply_action_to_task], and each invocation of
    [q_update] with its actual arguments. *)
Inductive kevent : Type :=
| EvPrInfo (p : Z) (action cur_nice new_nice : Z)
| EvSetUserNice (p : Z) (new_nice : Z)
| EvQUpdate (p : Z) (s : rl_state) (a : Z) (reward : Z) (s_next : rl_state).

Record kstate : Type := mk_kstate {
  pid_table : list pid_entry;     (* the global list, head first *)
  random_pool : nat -> Z;         (* successive results of get_random_u32 *)
  random_next : nat;
  kzalloc_ok : nat -> bool;       (* whether the n-th kzalloc succeeds *)
  kzalloc_next : nat;
  klog : list kevent              (* oldest first *)
}.

Definition kern (A : Type) : Type := kstate -> A * kstate.

Definition kret {A} (x : A) : kern A := fun k => (x, k).
Definition kbind {A B} (m : kern A) (f : A -> kern B) : kern B :=
  fun k => let (x, k') := m k in f x k'.

Notation "'do' x <- m ;; f" := (kbind m (fun x => f))
  (at level 10, x name, m at level 99, f at level 200).
Notation "'run' m ;; f" := (kbind m (fun _ => f))
  (at level 10, m at level 99, f at level 200).

Definition set_pid_table (t : list pid_entry) (k : kstate) : kstate :=
  mk_kstate t (random_pool k) (random_next k) (kzalloc_ok k) (kzalloc_next k)
            (klog k).

Definition get_table : kern (list pid_entry) := fun k => (pid_table k, k).
Definition put_table (t : list pid_entry) : kern unit :=
  fun k => (tt, set_pid_table t k).

Definition emit (e : kevent) : kern unit :=
  fun k => (tt, mk_kstate (pid_table k) (random_pool k) (random_next k)
                          (kzalloc_ok k) (kzalloc_next k) (klog k ++ [e])).

Definition get_random_u32 : kern Z :=
  fun k => (to_u32 (random_pool k (random_next k)),
            mk_kstate (pid_table k) (random_pool k) (S (random_next k))
                      (kzalloc_ok k) (kzalloc_next k) (klog k)).

(** [kzalloc (sizeof *e, GFP_KERNEL)]: tells whether a node was obtained. *)
Definition kzalloc : kern bool :=
  fun k => (kzalloc_ok k (kzalloc_next k),
            mk_kstate (pid_table k) (random_pool k) (random_next k)
                      (kzalloc_ok k) (S (kzalloc_next k)) (klog k)).

(* ===================================================================== *)
(** ** The module's functions *)
(* ===================================================================== *)

(** Utility: categorize cpu delta (ns) into state buckets. *)
Definition cpu_delta_to_state (delta_ns : Z) : rl_state :=
  if delta_ns <? 1000000 then RL_STATE_LOW
  else if delta_ns <? 50000000 then RL_STATE_MED
  else RL_STATE_HIGH.

(** The node [get_pid_entry] links in when the pid is new. *)
Definition new_pid_entry (p : Z) : pid_entry :=
  mk_pid_entry p 0 zero_qtable RL_STATE_LOW RL_NOOP.

(** Find or create the entry of a pid.  The result is the position of the
    node in [pid_table] with the node's contents, or [None] for [NULL]. *)
Definition get_pid_entry (p : Z) : kern (option (nat * pid_entry)) :=
  do t <- get_table ;;
  match list_find (fun e => pid e = p) t with
  | Some ie => kret (Some ie)
  | None =>
      do ok <- kzalloc ;;
      if (ok : bool) then
        run put_table (new_pid_entry p :: t) ;;
        kret (Some (0%nat, new_pid_entry p))
      else kret None
  end.

(** Unlink and free the first node of the pid, if any. *)
Fixpoint list_del_pid (p : Z) (t : list pid_entry) : list pid_entry :=
  match t with
  | [] => []
  | e :: t' => if pid e =? p then t' else e :: list_del_pid p t'
  end.

Definition remove_pid_entry (p : Z) : kern unit :=
  do t <- get_table ;; put_table (list_del_pid p t).

Definition free_all_entries : kern unit := put_table [].

(** Clamp nice between -20 and 19. *)
Definition clamp_nice (n : Z) : Z :=
  if n <? -20 then -20 else if n >? 19 then 19 else n.

Section Module_params.

Context (cfg : params).

(** One turn of the scan [for (a = 0; a < NUM_ACTIONS; a++)] of
    [choose_action], on the pair [(best, best_a)]. *)
Definition choose_scan (pe : pid_entry) (st : rl_state)
           (acc : Z * Z) (a : Z) : Z * Z :=
  let val := qtable_get (qtable pe) st a in
  if val >? fst acc then (val, a) else acc.

(** Choose action with epsilon-greedy on the qtable row. *)
Definition choose_action (pe : pid_entry) (st : rl_state) : kern Z :=
  do r0 <- get_random_u32 ;;
  let r := r0 mod 1000 in
  if r <? to_u32 (epsilon_permille cfg) then
    do r1 <- get_random_u32 ;;
    kret (r1 mod NUM_ACTIONS)
  else
    kret (snd (fold_left (choose_scan pe st) [0; 1; 2] (LONG_MIN, 0))).

(** One turn of the scan of [q_update] for [best_next]. *)
Definition best_next_scan (pe : pid_entry) (s_next : rl_state)
           (best_next : Z) (i : Z) : Z :=
  if qtable_get (qtable pe) s_next i >? best_next
  then qtable_get (qtable pe) s_next i else best_next.

Definition best_next_of (pe : pid_entry) (s_next : rl_state) : Z :=
  let best_next := fold_left (best_next_scan pe s_next) [0; 1; 2] LONG_MIN in
  if best_next =? LONG_MIN then 0 else best_next.

(** Q-learning update (all values in permille scaling). *)
Definition q_update (pe : pid_entry) (s : rl_state) (a : Z)
           (reward : Z) (s_next : rl_state) : pid_entry :=
  let q := qtable_get (qtable pe) s a in
  let best_next := best_next_of pe s_next in
  let tmp :=
    to_long (to_long (reward
                      + Z.quot (to_long (gamma_permille cfg * best_next)) 1000)
             - q) in
  let q' := to_long (q + Z.quot (to_long (alpha_permille cfg * tmp)) 1000) in
  set_qtable (qtable_set (qtable pe) s a q') pe.

(** The [switch] of [apply_action_to_task] followed by [clamp_nice]. *)
Definition action_new_nice (cur_nice action : Z) : Z :=
  let new_nice :=
    if action =? RL_DEC_NICE then to_int (cur_nice - action_step cfg)
    else if action =? RL_INC_NICE then to_int (cur_nice + action_step cfg)
    else cur_nice in
  clamp_nice new_nice.

(** Apply action to task: adjust nice by step. *)
Definition apply_action_to_task (task : task_struct) (action : Z)
  : kern task_struct :=
  let cur_nice := nice task in
  let new_nice := action_new_nice cur_nice action in
  if negb (new_nice =? cur_nice) then
    run emit (EvPrInfo (task_pid task) action cur_nice new_nice) ;;
    run emit (EvSetUserNice (task_pid task) new_nice) ;;
    kret (set_nice new_nice task)
  else kret task.

(** [pe->... = ...] through the pointer at position [i]. *)
Definition store_entry (i : nat) (pe : pid_entry) : kern unit :=
  do t <- get_table ;; put_table (<[i := pe]> t).

(** [delta = (curr_runtime >= pe->prev_runtime) ?
             (curr_runtime - pe->prev_runtime) : 0], on [unsigned long long]. *)
Definition runtime_delta (curr_runtime prev : Z) : Z :=
  if curr_runtime >=? prev then to_u64 (curr_runtime - prev) else 0.

(** [reward = -(long)(delta / 1000000ULL)]. *)
Definition delta_reward (delta : Z) : Z :=
  to_long (- to_long (delta / 1000000)).

(** The body of [for_each_process (p)] in [rl_worker]. *)
Definition rl_worker_body (p : task_struct) : kern task_struct :=
  if (exit_state p =? EXIT_ZOMBIE) || (exit_state p =? EXIT_DEAD) then kret p
  else
    let curr_runtime := to_u64 (sum_exec_runtime p) in
    do r <- get_pid_entry (task_pid p) ;;
    match r with
    | None => kret p
    | Some (i, pe) =>
        if prev_runtime pe =? 0 then
          run store_entry i (set_prev_runtime curr_runtime pe) ;;
          kret p
        else
          let delta := runtime_delta curr_runtime (prev_runtime pe) in
          let st := cpu_delta_to_state delta in
          do action <- choose_action pe st ;;
          do p' <- apply_action_to_task p action ;;
          let reward := delta_reward delta in
          do pe1 <-
            (if (prev_action pe >=? 0) && (prev_action pe <? NUM_ACTIONS)
             then
               run emit (EvQUpdate (pid pe) (prev_state pe) (prev_action pe)
                                   reward st) ;;
               kret (q_update pe (prev_state pe) (prev_action pe) reward st)
             else kret pe) ;;
          run store_entry i
                (set_prev_runtime curr_runtime
                   (set_prev_action action (set_prev_state st pe1))) ;;
          kret p'
    end.

(** [for_each_process (p) { ... }] over the host's process list. *)
Fixpoint for_each_process (ps : list task_struct)
  : kern (list task_struct) :=
  match ps with
  | [] => kret []
  | p :: ps' =>
      do p' <- rl_worker_body p ;;
      do ps'' <- for_each_process ps' ;;
      kret (p' :: ps'')
  end.

(** The worker.  [sleeps] lists, for each turn of
    [while (!kthread_should_stop ())], what the host does to its process
    list during [msleep_interruptible]; the loop ends when it is used up. *)
Fixpoint rl_worker (sleeps : list (list task_struct -> list task_struct))
         (ps : list task_struct) : kern (list task_struct) :=
  match sleeps with
  | [] => kret ps
  | host :: sleeps' =>
      do ps' <- for_each_process ps ;;
      rl_worker sleeps' (host ps')
  end.

End Module_params.

(** The state the module is loaded in: empty table, nothing logged. *)
Definition boot (rnd : nat -> Z) (alloc : nat -> bool) : kstate :=
  mk_kstate [] rnd 0 alloc 0 [].

(* ===================================================================== *)
(** ** Vocabulary of the specification *)
(* ===================================================================== *)

(** A well-formed table: [NUM_STATES] rows of [NUM_ACTIONS] cells, each a
    [long]. *)
Definition wf_qtable (q : list (list Z)) : Prop :=
  length q = Z.to_nat NUM_STATES /\
  Forall (fun row : list Z =>
            length row = Z.to_nat NUM_ACTIONS /\ Forall in_long row) q.

(** [k] with [evs] appended to its log. *)
Definition log_append (evs : list kevent) (k : kstate) : kstate :=
  mk_kstate (pid_table k) (random_pool k) (random_next k) (kzalloc_ok k)
            (kzalloc_next k) (klog k ++ evs).

(** The priority writes ([set_user_nice] calls) in a piece of log, as pairs
    of pid and new nice value. *)
Definition nice_writes (l : list kevent) : list (Z * Z) :=
  omap (fun e => match e with
                 | EvSetUserNice p n => Some (p, n)
                 | _ => None
                 end) l.

(** The rewards handed to [q_update] in a piece of log. *)
Definition update_rewards (l : list kevent) : list Z :=
  omap (fun e => match e with
                 | EvQUpdate _ _ _ reward _ => Some reward
                 | _ => None
                 end) l.


(** The maximum of the row [qtable[s]]. *)
Definition row_max (q : list (list Z)) (s : rl_state) : Z :=
  Z.max (qtable_get q s 0) (Z.max (qtable_get q s 1) (qtable_get q s 2)).

(** The value of the update rule as the specification words it: exact
    integers, divisions truncating toward zero. *)
Definition spec_update_value (alpha gamma q reward best_next : Z) : Z :=
  q + Z.quot (alpha * (reward + Z.quot (gamma * best_next) 1000 - q)) 1000.

(** No intermediate result of the update rule leaves the range of [long]. *)
Definition update_fits (alpha gamma q reward best_next : Z) : Prop :=
  in_long (gamma * best_next) /\
  in_long (reward + Z.quot (gamma * best_next) 1000) /\
  in_long (reward + Z.quot (gamma * best_next) 1000 - q) /\
  in_long (alpha * (reward + Z.quot (gamma * best_next) 1000 - q)) /\
  in_long (spec_update_value alpha gamma q reward best_next).

(** At most one entry per pid in the table. *)
Definition unique_pids (t : list pid_entry) : Prop := NoDup (pid <$> t).

(** No entry of the table carries pid [p]. *)
Definition pid_absent (p : Z) (t : list pid_entry) : Prop :=
  Forall (fun e : pid_entry => pid e <> p) t.

(** The task is one the worker looks at: neither zombie nor dead. *)
Definition task_live (p : task_struct) : Prop :=
  exit_state p <> EXIT_ZOMBIE /\ exit_state p <> EXIT_DEAD.

(** [k] after one more [kzalloc] call. *)
Definition after_kzalloc (k : kstate) : kstate :=
  mk_kstate (pid_table k) (random_pool k) (random_next k) (kzalloc_ok k)
            (S (kzalloc_next k)) (klog k).

(** The host leaves its process list as it is while the worker sleeps. *)
Definition host_idle (ps : list task_struct) : list task_struct := ps.

(** While the worker sleeps every process reaches cumulative CPU time [t]. *)
Definition host_runs_to (t : Z) (ps : list task_struct) : list task_struct :=
  map (fun p => mk_task (task_pid p) (exit_state p) t (nice p)) ps.

(** What [apply_action_to_task] logs for a task and an action. *)
Definition renice_events (cfg : params) (task : task_struct) (action : Z)
  : list kevent :=
  if action_new_nice cfg (nice task) action =? nice task then []
  else [EvPrInfo (task_pid task) action (nice task)
                 (action_new_nice cfg (nice task) action);
        EvSetUserNice (task_pid task)
                      (action_new_nice cfg (nice task) action)].

(** [prev_action] passes the test that guards the call of [q_update]. *)
Definition prev_action_valid (pe : pid_entry) : bool :=
  (prev_action pe >=? 0) && (prev_action pe <? NUM_ACTIONS).

(** The entry of pid [p0] in the table, if there is one. *)
Definition entry_of (p0 : Z) (t : list pid_entry) : option pid_entry :=
  snd <$> list_find (fun e : pid_entry => pid e = p0) t.

(** Every live task of the list that carries pid [p0] reads cumulative CPU
    time 0. *)
Definition zero_runtime_for (p0 : Z) (ps : list task_struct) : Prop :=
  Forall (fun q : task_struct =>
            task_pid q = p0 -> task_live q -> sum_exec_runtime q = 0) ps.

(** The host keeps every live task of pid [p0] at cumulative CPU time 0
    during each sleep of the list. *)
Definition hosts_keep_zero (p0 : Z)
           (sleeps : list (list task_struct -> list task_struct)) : Prop :=
  Forall (fun host : list task_struct -> list task_struct =>
            forall ps : list task_struct,
              zero_runtime_for p0 ps -> zero_runtime_for p0 (host ps)) sleeps.

(** [k] after [n] more calls of [get_random_u32]. *)
Definition after_draws (n : nat) (k : kstate) : kstate :=
  mk_kstate (pid_table k) (random_pool k) (n + random_next k) (kzalloc_ok k)
            (kzalloc_next k) (klog k).

(** The entry that a processed sample leaves behind: the old entry after
    the guarded [q_update] and the three assignments that end the body. *)
Definition learned_entry (cfg : params) (pe : pid_entry)
           (curr_runtime action : Z) : pid_entry :=
  set_prev_runtime
    curr_runtime
    (set_prev_action
       action
       (set_prev_state
          (cpu_delta_to_state (runtime_delta curr_runtime (prev_runtime pe)))
          (if prev_action_valid pe
           then q_update cfg pe (prev_state pe) (prev_action pe)
                         (delta_reward
                            (runtime_delta curr_runtime (prev_runtime pe)))
                         (cpu_delta_to_state
                            (runtime_delta curr_runtime (prev_runtime pe)))
           else pe))).


(** The largest magnitude of a reward: 2^64 - 1 ns in milliseconds. *)
Definition REWARD_MAX : Z := 18446744073709.

(** What the worker's invariants say of one entry: its table is a
    [long[3][3]], its [prev_action] is one of the three actions and its
    [prev_runtime] is an [unsigned long long]. *)
Definition entry_ok (e : pid_entry) : Prop :=
  wf_qtable (qtable e) /\
  0 <= prev_action e < NUM_ACTIONS /\
  in_u64 (prev_runtime e).


(** No task of the process list carries pid [p0]. *)
Definition pid_gone (p0 : Z) (ps : list task_struct) : Prop :=
  Forall (fun q : task_struct => task_pid q <> p0) ps.

(** During each sleep of the list the host does not bring pid [p0] back. *)
Definition hosts_keep_gone (p0 : Z)
           (sleeps : list (list task_struct -> list task_struct)) : Prop :=
  Forall (fun host : list task_struct -> list task_struct =>
            forall ps : list task_struct,
              pid_gone p0 ps -> pid_gone p0 (host ps)) sleeps.

(** What the body of the loop may change of a task: nothing but the nice
    value, and that only to a value in [[-20, 19]]. *)
Definition reniced (p p' : task_struct) : Prop :=
  task_pid p' = task_pid p /\
  exit_state p' = exit_state p /\
  sum_exec_runtime p' = sum_exec_runtime p /\
  (nice p' = nice p \/ -20 <= nice p' <= 19).

(* ===================================================================== *)
(** ** Module load and unload *)
(* ===================================================================== *)

(** The host's error-pointer convention (linux/err.h): a pointer whose
    value, as [unsigned long], is among the last [MAX_ERRNO] ones carries an
    error number. *)
Definition MAX_ERRNO : Z := 4095.

Definition IS_ERR (ptr : Z) : bool := to_u64 (- MAX_ERRNO) <=? to_u64 ptr.

Definition PTR_ERR (ptr : Z) : Z := to_long ptr.

(** [rl_init], given what [kthread_run] returns: the [int] it returns and
    the value it leaves in [rl_thread] (0 for NULL).  Its log lines are not
    part of the model. *)
Definition rl_init (kthread_run_result : Z) : Z * Z :=
  let rl_thread := kthread_run_result in
  if IS_ERR rl_thread then
    let rl_thread := 0 in
    (to_int (PTR_ERR rl_thread), rl_thread)
  else (0, rl_thread).

(** [rl_exit], given [rl_thread]: tells whether [kthread_stop] is called,
    then drains the table. *)
Definition rl_exit (rl_thread : Z) : kern bool :=
  let stopped := negb (rl_thread =? 0) in
  run free_all_entries ;;
  kret stopped.

(* ===================================================================== *)
(** ** latency_probe: the sleep request *)
(* ===================================================================== *)

(** [req.tv_sec = sleep_us / 1000000;
     req.tv_nsec = (sleep_us % 1000000) * 1000;] of [main], with [sleep_us]
    an [int]: the pair of [tv_sec] and [tv_nsec]. *)
Definition sleep_request (sleep_us : Z) : Z * Z :=
  (to_long (to_int (Z.quot sleep_us 1000000)),
   to_long (to_int (Z.rem sleep_us 1000000 * 1000))).

(** What is safe to find in the log: a renice to a valid nice value that
    differs from the current one, announced with that same value, and a
    [q_update] call whose action indexes the table and whose reward is one
    the loop can compute. *)
Definition event_safe (e : kevent) : Prop :=
  match e with
  | EvPrInfo _ _ cur_nice new_nice =>
      -20 <= new_nice <= 19 /\ new_nice <> cur_nice
  | EvSetUserNice _ new_nice => -20 <= new_nice <= 19
  | EvQUpdate _ _ a reward _ =>
      0 <= a < NUM_ACTIONS /\ - REWARD_MAX <= reward <= 0
  end.

(* ===================================================================== *)
(** ** Facts about the machine integers *)
(* ===================================================================== *)

Ltac unfold_ints :=
  unfold to_long, to_int, to_u32, to_u64, wrap_signed, in_long, in_u64,
         LONG_MIN, LONG_MAX in *;
  change (2 ^ (64 - 1)) with 9223372036854775808 in *;
  change (2 ^ (32 - 1)) with 2147483648 in *;
  change (2 ^ 64) with 18446744073709551616 in *;
  change (2 ^ 63) with 9223372036854775808 in *;
  change (2 ^ 32) with 4294967296 in *;
  change (2 ^ 31) with 2147483648 in *.

Lemma to_long_id (z : Z) : in_long z -> to_long z = z.
Proof. unfold_ints. intros Hz. rewrite Z.mod_small; lia. Qed.

Lemma to_long_range (z : Z) : in_long (to_long z).
Proof.
  unfold_ints.
  pose proof (Z.mod_pos_bound (z + 9223372036854775808) 18446744073709551616).
  lia.
Qed.

Lemma to_int_id (z : Z) : - 2 ^ 31 <= z < 2 ^ 31 -> to_int z = z.
Proof. unfold_ints. intros Hz. rewrite Z.mod_small; lia. Qed.

Lemma to_u64_range (z : Z) : in_u64 (to_u64 z).
Proof. unfold_ints. apply Z.mod_pos_bound. lia. Qed.

Lemma to_u64_id (z : Z) : in_u64 z -> to_u64 z = z.
Proof. unfold_ints. intros Hz. apply Z.mod_small. lia. Qed.

Lemma to_u32_range (z : Z) : 0 <= to_u32 z < 2 ^ 32.
Proof. unfold_ints. apply Z.mod_pos_bound. lia. Qed.

(* ===================================================================== *)
(** ** The state classifier *)
(* ===================================================================== *)

(** C4.  [cpu_delta_to_state] is defined on every delta and answers LOW
    exactly below 1,000,000 ns, MED exactly from 1,000,000 ns up to but not
    including 50,000,000 ns, and HIGH exactly from 50,000,000 ns on; hence a
    larger delta never gets a smaller state in the order LOW < MED < HIGH of
    the enumerator values. *)
Theorem cpu_delta_to_state_thresholds_monotone (d1 d2 : Z) :
  (cpu_delta_to_state d1 = RL_STATE_LOW <-> d1 < 1000000) /\
  (cpu_delta_to_state d1 = RL_STATE_MED <-> 1000000 <= d1 < 50000000) /\
  (cpu_delta_to_state d1 = RL_STATE_HIGH <-> 50000000 <= d1) /\
  (d1 < d2 ->
   rl_state_value (cpu_delta_to_state d1)
   <= rl_state_value (cpu_delta_to_state d2)).
Proof.
  unfold cpu_delta_to_state.
  destruct (Z.ltb_spec d1 1000000), (Z.ltb_spec d1 50000000),
           (Z.ltb_spec d2 1000000), (Z.ltb_spec d2 50000000);
    repeat split; intros; simpl; try lia; try discriminate; try reflexivity.
Qed.

Lemma cpu_delta_to_state_thresholds_monotone_witness :
  cpu_delta_to_state 999999 = RL_STATE_LOW /\
  cpu_delta_to_state 1000000 = RL_STATE_MED /\
  cpu_delta_to_state 50000000 = RL_STATE_HIGH /\
  rl_state_value (cpu_delta_to_state 49999999)
  <= rl_state_value (cpu_delta_to_state 50000000).
Proof.
  split; [| split; [| split]].
  - apply (cpu_delta_to_state_thresholds_monotone 999999 0). lia.
  - apply (cpu_delta_to_state_thresholds_monotone 1000000 0). lia.
  - apply (cpu_delta_to_state_thresholds_monotone 50000000 0). lia.
  - apply (cpu_delta_to_state_thresholds_monotone 49999999 50000000). lia.
Defined.

(* ===================================================================== *)
(** ** Q-table cells *)
(* ===================================================================== *)

Lemma wf_zero_qtable : wf_qtable zero_qtable.
Proof.
  split; [reflexivity |].
  repeat constructor; unfold_ints; lia.
Qed.

Lemma state_index_lt (s : rl_state) :
  (Z.to_nat (rl_state_value s) < Z.to_nat NUM_STATES)%nat.
Proof. destruct s; simpl; unfold NUM_STATES; lia. Qed.

Lemma wf_qtable_row (q : list (list Z)) (s : rl_state) :
  wf_qtable q ->
  exists row : list Z,
    q !! Z.to_nat (rl_state_value s) = Some row /\
    length row = Z.to_nat NUM_ACTIONS /\ Forall in_long row.
Proof.
  intros [Hlen Hrows].
  destruct (lookup_lt_is_Some_2 q (Z.to_nat (rl_state_value s))) as [row Hrow].
  { rewrite Hlen. apply state_index_lt. }
  exists row. split; [exact Hrow |].
  exact (Forall_lookup_1 _ _ _ _ Hrows Hrow).
Qed.

Lemma qtable_get_in_long (q : list (list Z)) (s : rl_state) (a : Z) :
  wf_qtable q -> in_long (qtable_get q s a).
Proof.
  intros Hwf. destruct (wf_qtable_row q s Hwf) as (row & Hrow & _ & Hcells).
  unfold qtable_get. rewrite Hrow. simpl.
  destruct (row !! Z.to_nat a) as [v |] eqn:Hv; simpl.
  - exact (Forall_lookup_1 _ _ _ _ Hcells Hv).
  - unfold_ints. lia.
Qed.

Lemma qtable_get_set_eq (q : list (list Z)) (s : rl_state) (a v : Z) :
  wf_qtable q -> 0 <= a < NUM_ACTIONS ->
  qtable_get (qtable_set q s a v) s a = v.
Proof.
  intros Hwf Ha. destruct (wf_qtable_row q s Hwf) as (row & Hrow & Hlen & _).
  unfold qtable_get, qtable_set.
  rewrite list_lookup_alter_eq, Hrow. simpl.
  rewrite list_lookup_insert_eq; [reflexivity |].
  rewrite Hlen. unfold NUM_ACTIONS in *. lia.
Qed.

Lemma qtable_get_set_ne (q : list (list Z)) (s s' : rl_state) (a a' v : Z) :
  0 <= a -> 0 <= a' -> (s', a') <> (s, a) ->
  qtable_get (qtable_set q s a v) s' a' = qtable_get q s' a'.
Proof.
  intros Ha Ha' Hne. unfold qtable_get, qtable_set.
  destruct (decide (s' = s)) as [-> | Hs].
  - rewrite list_lookup_alter_eq.
    destruct (q !! Z.to_nat (rl_state_value s)) as [row |]; simpl;
      [| reflexivity].
    rewrite list_lookup_insert_ne; [reflexivity |].
    intros Heq. apply Hne. f_equal. lia.
  - rewrite list_lookup_alter_ne; [reflexivity |].
    destruct s, s'; simpl; try lia; congruence.
Qed.

Lemma wf_qtable_set (q : list (list Z)) (s : rl_state) (a v : Z) :
  wf_qtable q -> in_long v -> wf_qtable (qtable_set q s a v).
Proof.
  intros [Hlen Hrows] Hv. unfold qtable_set. split.
  - rewrite length_alter. exact Hlen.
  - apply Forall_alter; [exact Hrows |].
    intros row _ [Hl Hc]. split.
    + rewrite length_insert. exact Hl.
    + apply Forall_insert; assumption.
Qed.

(* ===================================================================== *)
(** ** The actuator *)
(* ===================================================================== *)

Lemma clamp_nice_range (n : Z) : -20 <= clamp_nice n <= 19.
Proof.
  unfold clamp_nice.
  destruct (Z.ltb_spec n (-20)); [lia |].
  destruct (Z.gtb_spec n 19); lia.
Qed.


Lemma action_new_nice_range (cfg : params) (cur action : Z) :
  -20 <= action_new_nice cfg cur action <= 19.
Proof. apply clamp_nice_range. Qed.


Lemma apply_action_to_task_log (cfg : params) (task : task_struct)
      (action : Z) (k : kstate) :
  let new_nice := action_new_nice cfg (nice task) action in
  snd (apply_action_to_task cfg task action k)
  = log_append (if new_nice =? nice task then []
                else [EvPrInfo (task_pid task) action (nice task) new_nice;
                      EvSetUserNice (task_pid task) new_nice]) k.
Proof.
  unfold apply_action_to_task, log_append.
  destruct (Z.eqb_spec (action_new_nice cfg (nice task) action) (nice task));
    simpl.
  - rewrite app_nil_r. destruct k; reflexivity.
  - rewrite <- app_assoc. reflexivity.
Qed.




(* ===================================================================== *)
(** ** The policy *)
(* ===================================================================== *)

(** The scan of [choose_action] ends on the lowest index holding the largest
    value of the row. *)
Lemma choose_scan_lowest_argmax (pe : pid_entry) (st : rl_state) :
  wf_qtable (qtable pe) ->
  let a := snd (fold_left (choose_scan pe st) [0; 1; 2] (LONG_MIN, 0)) in
  0 <= a < NUM_ACTIONS /\
  (forall a' : Z, 0 <= a' < NUM_ACTIONS ->
                  qtable_get (qtable pe) st a' <= qtable_get (qtable pe) st a) /\
  (forall a' : Z, 0 <= a' < a ->
                  qtable_get (qtable pe) st a' < qtable_get (qtable pe) st a).
Proof.
  intros Hwf.
  pose proof (qtable_get_in_long (qtable pe) st 0 Hwf) as H0.
  pose proof (qtable_get_in_long (qtable pe) st 1 Hwf) as H1.
  pose proof (qtable_get_in_long (qtable pe) st 2 Hwf) as H2.
  unfold in_long, LONG_MAX in H0, H1, H2.
  assert (Hcases : forall (P : Z -> Prop) (a' : Z),
             0 <= a' < NUM_ACTIONS -> P 0 -> P 1 -> P 2 -> P a').
  { intros P a' Ha' P0 P1 P2. unfold NUM_ACTIONS in Ha'.
    assert (a' = 0 \/ a' = 1 \/ a' = 2) as [-> | [-> | ->]] by lia;
      assumption. }
  cbv beta iota zeta delta [fold_left choose_scan fst snd].
  remember (qtable_get (qtable pe) st 0) as x0 eqn:E0.
  remember (qtable_get (qtable pe) st 1) as x1 eqn:E1.
  remember (qtable_get (qtable pe) st 2) as x2 eqn:E2.
  remember LONG_MIN as lo eqn:Elo.
  repeat match goal with
         | |- context [ ?x >? ?y ] =>
             is_var x; is_var y; destruct (Z.gtb_spec x y); cbv beta iota
         end;
    subst x0 x1 x2; unfold NUM_ACTIONS;
    (split; [lia |]);
    (split; [intros a' Ha'; pattern a'; apply Hcases; [exact Ha' | lia ..]
            | intros a' Ha';
              assert (a' = 0 \/ a' = 1) as [-> | ->] by lia; lia]).
Qed.

Lemma choose_action_greedy (cfg : params) (pe : pid_entry) (st : rl_state)
      (k : kstate) :
  epsilon_permille cfg = 0 ->
  choose_action cfg pe st k
  = (snd (fold_left (choose_scan pe st) [0; 1; 2] (LONG_MIN, 0)),
     snd (get_random_u32 k)).
Proof.
  intros Heps. unfold choose_action, kbind, get_random_u32, kret.
  rewrite Heps. change (to_u32 0) with 0.
  destruct (Z.ltb_spec
              (to_u32 (random_pool k (random_next k)) mod 1000) 0) as [Hlt | _].
  - pose proof (Z.mod_pos_bound
                  (to_u32 (random_pool k (random_next k))) 1000).
    lia.
  - reflexivity.
Qed.

(** C3.  With [epsilon_permille = 0] the action returned by [choose_action]
    does not depend on the random draws: it is an index of the row
    [qtable[st]] holding the maximum of the row, and every lower index holds
    a strictly smaller value, so ties go to the lowest index. *)
Theorem choose_action_epsilon_zero_lowest_argmax
        (cfg : params) (pe : pid_entry) (st : rl_state) (k : kstate) :
  epsilon_permille cfg = 0 ->
  wf_qtable (qtable pe) ->
  0 <= fst (choose_action cfg pe st k) < NUM_ACTIONS /\
  (forall a' : Z,
      0 <= a' < NUM_ACTIONS ->
      qtable_get (qtable pe) st a'
      <= qtable_get (qtable pe) st (fst (choose_action cfg pe st k))) /\
  (forall a' : Z,
      0 <= a' < fst (choose_action cfg pe st k) ->
      qtable_get (qtable pe) st a'
      < qtable_get (qtable pe) st (fst (choose_action cfg pe st k))) /\
  (forall k' : kstate,
      fst (choose_action cfg pe st k') = fst (choose_action cfg pe st k)).
Proof.
  intros Heps Hwf.
  rewrite (choose_action_greedy cfg pe st k Heps). simpl fst.
  pose proof (choose_scan_lowest_argmax pe st Hwf) as (Hr & Hmax & Hlow).
  repeat split; try assumption; try apply Hr.
  intros k'. rewrite (choose_action_greedy cfg pe st k' Heps). reflexivity.
Qed.

Lemma choose_action_epsilon_zero_lowest_argmax_witness :
  fst (choose_action (mk_params 200 900 0 1000 5)
                     (mk_pid_entry 7 1 [[3; 7; 7]; [0; 0; 0]; [0; 0; 0]]
                                   RL_STATE_LOW RL_NOOP)
                     RL_STATE_LOW (boot (fun _ => 0) (fun _ => true)))
  = fst (choose_action (mk_params 200 900 0 1000 5)
                       (mk_pid_entry 7 1 [[3; 7; 7]; [0; 0; 0]; [0; 0; 0]]
                                     RL_STATE_LOW RL_NOOP)
                       RL_STATE_LOW (boot (fun _ => 999) (fun _ => true))).
Proof.
  apply (choose_action_epsilon_zero_lowest_argmax
           (mk_params 200 900 0 1000 5)
           (mk_pid_entry 7 1 [[3; 7; 7]; [0; 0; 0]; [0; 0; 0]]
                         RL_STATE_LOW RL_NOOP)
           RL_STATE_LOW (boot (fun _ => 999) (fun _ => true))).
  - reflexivity.
  - split; [reflexivity |]. repeat constructor; unfold_ints; lia.
Defined.

(** The manufactured tie: two cells share the maximum, the lower wins. *)
Example choose_action_tie :
  fst (choose_action (mk_params 200 900 0 1000 5)
                     (mk_pid_entry 7 1 [[3; 7; 7]; [0; 0; 0]; [0; 0; 0]]
                                   RL_STATE_LOW RL_NOOP)
                     RL_STATE_LOW (boot (fun _ => 0) (fun _ => true))) = 1.
Proof. vm_compute. reflexivity. Qed.

(* ===================================================================== *)
(** ** The Q-value updater *)
(* ===================================================================== *)

(** The scan for [best_next] yields the row maximum, which the guard
    [if (best_next == LONG_MIN)] then turns into 0 when it is [LONG_MIN]. *)
Lemma best_next_of_row_max (pe : pid_entry) (s_next : rl_state) :
  wf_qtable (qtable pe) ->
  best_next_of pe s_next
  = if row_max (qtable pe) s_next =? LONG_MIN then 0
    else row_max (qtable pe) s_next.
Proof.
  intros Hwf.
  pose proof (qtable_get_in_long (qtable pe) s_next 0 Hwf) as H0.
  pose proof (qtable_get_in_long (qtable pe) s_next 1 Hwf) as H1.
  pose proof (qtable_get_in_long (qtable pe) s_next 2 Hwf) as H2.
  unfold in_long, LONG_MAX in H0, H1, H2.
  unfold best_next_of, row_max.
  cbv beta iota zeta delta [fold_left best_next_scan].
  remember (qtable_get (qtable pe) s_next 0) as x0 eqn:E0.
  remember (qtable_get (qtable pe) s_next 1) as x1 eqn:E1.
  remember (qtable_get (qtable pe) s_next 2) as x2 eqn:E2.
  remember LONG_MIN as lo eqn:Elo.
  repeat match goal with
         | |- context [ ?x >? ?y ] =>
             is_var x; is_var y; destruct (Z.gtb_spec x y); cbv beta iota
         end;
    repeat match goal with
           | |- context [ ?x =? ?y ] => destruct (Z.eqb_spec x y)
           end;
    lia.
Qed.

Lemma best_next_of_in_long (pe : pid_entry) (s_next : rl_state) :
  wf_qtable (qtable pe) -> in_long (best_next_of pe s_next).
Proof.
  intros Hwf. rewrite best_next_of_row_max by exact Hwf.
  pose proof (qtable_get_in_long (qtable pe) s_next 0 Hwf) as H0.
  pose proof (qtable_get_in_long (qtable pe) s_next 1 Hwf) as H1.
  pose proof (qtable_get_in_long (qtable pe) s_next 2 Hwf) as H2.
  unfold row_max.
  destruct (Z.eqb_spec
              (Z.max (qtable_get (qtable pe) s_next 0)
                     (Z.max (qtable_get (qtable pe) s_next 1)
                            (qtable_get (qtable pe) s_next 2))) LONG_MIN);
    unfold_ints; lia.
Qed.

Lemma q_update_frame (cfg : params) (pe : pid_entry) (s : rl_state) (a : Z)
      (reward : Z) (s_next : rl_state) :
  pid (q_update cfg pe s a reward s_next) = pid pe /\
  prev_runtime (q_update cfg pe s a reward s_next) = prev_runtime pe /\
  prev_state (q_update cfg pe s a reward s_next) = prev_state pe /\
  prev_action (q_update cfg pe s a reward s_next) = prev_action pe.
Proof. repeat split. Qed.

Lemma wf_q_update (cfg : params) (pe : pid_entry) (s : rl_state) (a : Z)
      (reward : Z) (s_next : rl_state) :
  wf_qtable (qtable pe) ->
  wf_qtable (qtable (q_update cfg pe s a reward s_next)).
Proof.
  intros Hwf. unfold q_update. simpl.
  apply wf_qtable_set; [exact Hwf | apply to_long_range].
Qed.

(** C2, as the code has it.  [q_update] writes the cell [qtable[s][a]] and
    nothing else: every other cell and every other field of the entry keep
    their values.  The value written is
    [q + (alpha * (reward + (gamma * best_next) / 1000 - q)) / 1000] computed
    in [long] arithmetic (each result reduced to 64 bits, divisions
    truncating toward zero), where [q] is the old value of the cell and
    [best_next] is the maximum of the row [qtable[s_next]], except that a
    maximum equal to [LONG_MIN] counts as 0.  When no intermediate result
    leaves the range of [long], this is the value of the formula in exact
    integers. *)
Theorem q_update_cell_and_frame
        (cfg : params) (pe : pid_entry) (s : rl_state) (a : Z)
        (reward : Z) (s_next : rl_state) :
  wf_qtable (qtable pe) ->
  0 <= a < NUM_ACTIONS ->
  let q := qtable_get (qtable pe) s a in
  let best_next :=
    if row_max (qtable pe) s_next =? LONG_MIN then 0
    else row_max (qtable pe) s_next in
  let pe' := q_update cfg pe s a reward s_next in
  qtable_get (qtable pe') s a
  = to_long
      (q + Z.quot
             (to_long
                (alpha_permille cfg
                 * to_long
                     (to_long
                        (reward
                         + Z.quot (to_long (gamma_permille cfg * best_next))
                                  1000)
                      - q)))
             1000) /\
  (update_fits (alpha_permille cfg) (gamma_permille cfg) q reward best_next ->
   qtable_get (qtable pe') s a
   = spec_update_value (alpha_permille cfg) (gamma_permille cfg)
                       q reward best_next) /\
  (forall (s' : rl_state) (a' : Z),
      0 <= a' < NUM_ACTIONS -> (s', a') <> (s, a) ->
      qtable_get (qtable pe') s' a' = qtable_get (qtable pe) s' a') /\
  pid pe' = pid pe /\
  prev_runtime pe' = prev_runtime pe /\
  prev_state pe' = prev_state pe /\
  prev_action pe' = prev_action pe /\
  wf_qtable (qtable pe').
Proof.
  intros Hwf Ha q best_next pe'.
  assert (Hcell :
    qtable_get (qtable pe') s a
    = to_long
        (q + Z.quot
               (to_long
                  (alpha_permille cfg
                   * to_long
                       (to_long
                          (reward
                           + Z.quot (to_long (gamma_permille cfg * best_next))
                                    1000)
                        - q)))
               1000)).
  { subst pe' best_next q. unfold q_update. simpl qtable.
    rewrite qtable_get_set_eq by assumption.
    rewrite best_next_of_row_max by exact Hwf. reflexivity. }
  split; [exact Hcell |].
  split.
  { intros (F1 & F2 & F3 & F4 & F5). rewrite Hcell.
    unfold spec_update_value in *.
    rewrite (to_long_id _ F1), (to_long_id _ F2), (to_long_id _ F3),
            (to_long_id _ F4).
    apply to_long_id. exact F5. }
  split.
  { intros s' a' Ha' Hne. subst pe'. unfold q_update. simpl qtable.
    apply qtable_get_set_ne; [lia | lia | exact Hne]. }
  repeat split; try apply wf_q_update; try apply Hwf.
Qed.

Lemma q_update_cell_and_frame_witness :
  qtable_get
    (qtable (q_update default_params
                      (mk_pid_entry 7 1 [[0; 0; 0]; [0; 0; 0]; [-10; 40; 0]]
                                    RL_STATE_LOW RL_DEC_NICE)
                      RL_STATE_LOW 0 (-51) RL_STATE_HIGH))
    RL_STATE_LOW 0
  = spec_update_value 200 900 0 (-51) 40.
Proof.
  refine (proj1 (proj2 (q_update_cell_and_frame
                          default_params
                          (mk_pid_entry 7 1
                                        [[0; 0; 0]; [0; 0; 0]; [-10; 40; 0]]
                                        RL_STATE_LOW RL_DEC_NICE)
                          RL_STATE_LOW 0 (-51) RL_STATE_HIGH _ _)) _).
  - split; [reflexivity |]. repeat constructor; unfold_ints; lia.
  - unfold NUM_ACTIONS. lia.
  - vm_compute. intuition discriminate.
Defined.

(** C2 fails as worded.  First, on a row whose cells all hold [LONG_MIN]
    the code takes 0 for [best_next], not the row maximum.  Second, the
    arithmetic is 64-bit: a product that leaves the range of [long] wraps,
    and the cell does not get the value of the formula in exact integers. *)
Lemma q_update_differs_from_exact_row_max_formula :
  qtable_get
    (qtable (q_update (mk_params 1000 1 200 1000 5)
                      (mk_pid_entry 7 1
                                    [[0; 0; 0];
                                     [LONG_MIN; LONG_MIN; LONG_MIN];
                                     [0; 0; 0]]
                                    RL_STATE_LOW RL_DEC_NICE)
                      RL_STATE_LOW 0 0 RL_STATE_MED))
    RL_STATE_LOW 0
  <> spec_update_value
       1000 1 0 0
       (row_max [[0; 0; 0]; [LONG_MIN; LONG_MIN; LONG_MIN]; [0; 0; 0]]
                RL_STATE_MED)
  /\
  qtable_get
    (qtable (q_update default_params
                      (mk_pid_entry 7 1
                                    [[4000000000000000000; 0; 0];
                                     [0; 0; 0];
                                     [0; 0; 0]]
                                    RL_STATE_LOW RL_DEC_NICE)
                      RL_STATE_LOW 0 0 RL_STATE_MED))
    RL_STATE_LOW 0
  <> spec_update_value 200 900 4000000000000000000 0
                       (row_max [[4000000000000000000; 0; 0];
                                 [0; 0; 0];
                                 [0; 0; 0]] RL_STATE_MED).
Proof. split; vm_compute; discriminate. Qed.

(** C5, as the code has it.  With [alpha_permille = 1000] and
    [gamma_permille = 0], [q_update] leaves exactly [reward] in
    [qtable[s][a]], whatever [s_next] is, for every old value [q] of the cell
    and every reward such that [1000 * (reward - q)] is representable as a
    [long]. *)
Theorem q_update_full_rate_no_discount
        (cfg : params) (pe : pid_entry) (s : rl_state) (a : Z)
        (reward : Z) (s_next : rl_state) :
  alpha_permille cfg = 1000 ->
  gamma_permille cfg = 0 ->
  wf_qtable (qtable pe) ->
  0 <= a < NUM_ACTIONS ->
  in_long reward ->
  in_long (1000 * (reward - qtable_get (qtable pe) s a)) ->
  qtable_get (qtable (q_update cfg pe s a reward s_next)) s a = reward.
Proof.
  intros Halpha Hgamma Hwf Ha Hreward Hfit.
  unfold q_update. simpl qtable.
  rewrite qtable_get_set_eq by assumption.
  rewrite Halpha, Hgamma, Z.mul_0_l.
  change (to_long 0) with 0. change (Z.quot 0 1000) with 0.
  rewrite Z.add_0_r, (to_long_id reward Hreward).
  assert (Hdiff : in_long (reward - qtable_get (qtable pe) s a)).
  { unfold_ints. lia. }
  rewrite (to_long_id _ Hdiff), (to_long_id _ Hfit).
  rewrite (Z.mul_comm 1000), Z.quot_mul by lia.
  replace (qtable_get (qtable pe) s a
           + (reward - qtable_get (qtable pe) s a)) with reward by lia.
  apply to_long_id. exact Hreward.
Qed.

Lemma q_update_full_rate_no_discount_witness :
  qtable_get
    (qtable (q_update (mk_params 1000 0 200 1000 5)
                      (mk_pid_entry 7 1 [[0; 0; 0]; [0; 123; 0]; [5; 40; 0]]
                                    RL_STATE_LOW RL_DEC_NICE)
                      RL_STATE_MED 1 (-51) RL_STATE_HIGH))
    RL_STATE_MED 1
  = -51.
Proof.
  apply (q_update_full_rate_no_discount
           (mk_params 1000 0 200 1000 5)
           (mk_pid_entry 7 1 [[0; 0; 0]; [0; 123; 0]; [5; 40; 0]]
                         RL_STATE_LOW RL_DEC_NICE)
           RL_STATE_MED 1 (-51) RL_STATE_HIGH).
  - reflexivity.
  - reflexivity.
  - split; [reflexivity |]. repeat constructor; unfold_ints; lia.
  - unfold NUM_ACTIONS. lia.
  - unfold_ints. lia.
  - vm_compute. intuition discriminate.
Defined.

(** C5 fails as worded: a reward far from the old value makes
    [alpha_permille * tmp] leave the range of [long], and the cell does not
    end up holding the reward. *)
Lemma q_update_full_rate_overflow :
  qtable_get
    (qtable (q_update (mk_params 1000 0 200 1000 5)
                      (new_pid_entry 7)
                      RL_STATE_LOW 0 10000000000000000 RL_STATE_LOW))
    RL_STATE_LOW 0
  <> 10000000000000000.
Proof. vm_compute. discriminate. Qed.

(* ===================================================================== *)
(** ** The learning table store *)
(* ===================================================================== *)

Lemma get_pid_entry_found (p : Z) (k : kstate) (i : nat) (e : pid_entry) :
  list_find (fun e0 : pid_entry => pid e0 = p) (pid_table k) = Some (i, e) ->
  get_pid_entry p k = (Some (i, e), k).
Proof.
  intros Hfind. unfold get_pid_entry, kbind, get_table, kret.
  rewrite Hfind. reflexivity.
Qed.

Lemma get_pid_entry_absent (p : Z) (k : kstate) :
  pid_absent p (pid_table k) ->
  get_pid_entry p k
  = if kzalloc_ok k (kzalloc_next k)
    then (Some (0%nat, new_pid_entry p),
          set_pid_table (new_pid_entry p :: pid_table k) (after_kzalloc k))
    else (None, after_kzalloc k).
Proof.
  intros Habs.
  pose proof (proj2 (list_find_None
                       (fun e0 : pid_entry => pid e0 = p) (pid_table k)) Habs)
    as Hfind.
  unfold get_pid_entry, kbind, get_table, kret, kzalloc, put_table.
  rewrite Hfind. fold (after_kzalloc k).
  destruct (kzalloc_ok k (kzalloc_next k)); reflexivity.
Qed.

Lemma unique_pids_find (t : list pid_entry) (i : nat) (e : pid_entry) :
  unique_pids t -> t !! i = Some e ->
  list_find (fun e0 : pid_entry => pid e0 = pid e) t = Some (i, e).
Proof.
  intros Huniq Hi. apply list_find_Some.
  split; [exact Hi |]. split; [reflexivity |].
  intros j y Hj Hlt Hpid.
  assert (Heq : i = j).
  { apply (NoDup_lookup (pid <$> t) i j (pid e) Huniq).
    - rewrite list_lookup_fmap, Hi. reflexivity.
    - rewrite list_lookup_fmap, Hj. simpl. f_equal. exact Hpid. }
  lia.
Qed.

Lemma pid_absent_not_elem (p : Z) (t : list pid_entry) :
  pid_absent p t -> p ∉ pid <$> t.
Proof.
  intros Habs Hin. apply list_elem_of_fmap in Hin as (e & -> & He).
  unfold pid_absent in Habs. rewrite Forall_forall in Habs.
  exact (Habs e He eq_refl).
Qed.

(** What [get_pid_entry] returns points at a node of the table it leaves,
    and that node carries the pid asked for. *)
Lemma get_pid_entry_points (p : Z) (k : kstate) (i : nat) (e : pid_entry) :
  fst (get_pid_entry p k) = Some (i, e) ->
  pid_table (snd (get_pid_entry p k)) !! i = Some e /\ pid e = p.
Proof.
  destruct (list_find (fun e0 : pid_entry => pid e0 = p) (pid_table k))
    as [[j y] |] eqn:Hfind.
  - rewrite (get_pid_entry_found p k j y Hfind). simpl.
    intros [= -> ->]. apply list_find_Some in Hfind as (Hj & Hp & _).
    split; assumption.
  - apply list_find_None in Hfind.
    rewrite (get_pid_entry_absent p k Hfind).
    destruct (kzalloc_ok k (kzalloc_next k)); simpl; [| discriminate].
    intros [= <- <-]. split; reflexivity.
Qed.

(** The pids in the table after [get_pid_entry]: the same, or the new pid
    in front of them when it was absent and memory was granted. *)
Lemma get_pid_entry_pids (p : Z) (k : kstate) :
  pid <$> pid_table (snd (get_pid_entry p k)) = pid <$> pid_table k \/
  (pid_absent p (pid_table k) /\
   pid <$> pid_table (snd (get_pid_entry p k)) = p :: (pid <$> pid_table k)).
Proof.
  destruct (list_find (fun e0 : pid_entry => pid e0 = p) (pid_table k))
    as [[j y] |] eqn:Hfind.
  - rewrite (get_pid_entry_found p k j y Hfind). left. reflexivity.
  - apply list_find_None in Hfind.
    rewrite (get_pid_entry_absent p k Hfind).
    destruct (kzalloc_ok k (kzalloc_next k)); simpl.
    + right. split; [exact Hfind | reflexivity].
    + left. reflexivity.
Qed.

Lemma get_pid_entry_unique (p : Z) (k : kstate) :
  unique_pids (pid_table k) ->
  unique_pids (pid_table (snd (get_pid_entry p k))).
Proof.
  unfold unique_pids. intros Huniq.
  destruct (get_pid_entry_pids p k) as [-> | [Habs ->]]; [exact Huniq |].
  apply NoDup_cons. split; [apply pid_absent_not_elem; exact Habs | exact Huniq].
Qed.

Lemma choose_action_keeps (cfg : params) (pe : pid_entry) (st : rl_state)
      (k : kstate) :
  pid_table (snd (choose_action cfg pe st k)) = pid_table k /\
  klog (snd (choose_action cfg pe st k)) = klog k /\
  kzalloc_next (snd (choose_action cfg pe st k)) = kzalloc_next k.
Proof.
  unfold choose_action, kbind, get_random_u32, kret.
  destruct (_ <? _); simpl; repeat split.
Qed.

Lemma store_entry_pids (i : nat) (pe e' : pid_entry) (k : kstate) :
  pid_table k !! i = Some pe -> pid e' = pid pe ->
  pid <$> pid_table (snd (store_entry i e' k)) = pid <$> pid_table k.
Proof.
  intros Hi Hpid. unfold store_entry, kbind, get_table, put_table. simpl.
  rewrite list_fmap_insert. apply list_insert_id.
  rewrite list_lookup_fmap, Hi, Hpid. reflexivity.
Qed.

(** The body of the loop leaves in the table the pids that its call of
    [get_pid_entry] left there. *)
Lemma rl_worker_body_pids_get (cfg : params) (p : task_struct) (k : kstate) :
  pid <$> pid_table (snd (rl_worker_body cfg p k))
  = pid <$> pid_table
      (if (exit_state p =? EXIT_ZOMBIE) || (exit_state p =? EXIT_DEAD)
       then k else snd (get_pid_entry (task_pid p) k)).
Proof.
  unfold rl_worker_body.
  destruct ((exit_state p =? EXIT_ZOMBIE) || (exit_state p =? EXIT_DEAD));
    [reflexivity |].
  unfold kbind at 1.
  pose proof (get_pid_entry_points (task_pid p) k) as Hpt.
  destruct (get_pid_entry (task_pid p) k) as [[[i pe] |] k1]; simpl in Hpt;
    [| reflexivity].
  destruct (Hpt i pe eq_refl) as [Hi Hpid]. simpl snd at 2.
  assert (Hfinal : forall (e' : pid_entry) (k2 : kstate) (p' : task_struct),
             pid e' = pid pe -> pid_table k2 = pid_table k1 ->
             pid <$> pid_table
               (snd ((run store_entry i e' ;; kret p') k2))
             = pid <$> pid_table k1).
  { intros e' k2 p' He' Hk2. unfold kbind, kret.
    pose proof (store_entry_pids i pe e' k2) as Hs.
    rewrite Hk2 in Hs. specialize (Hs Hi He').
    destruct (store_entry i e' k2) as [u k3]. exact Hs. }
  destruct (prev_runtime pe =? 0).
  - apply Hfinal; reflexivity.
  - unfold kbind at 1.
    pose proof (choose_action_keeps
                  cfg pe
                  (cpu_delta_to_state
                     (runtime_delta (to_u64 (sum_exec_runtime p))
                                    (prev_runtime pe))) k1) as (Hc & _).
    destruct (choose_action _ _ _ k1) as [action k2]. simpl in Hc.
    unfold kbind at 1.
    pose proof (apply_action_to_task_log cfg p action k2) as Ha.
    destruct (apply_action_to_task cfg p action k2) as [p' k3]. simpl in Ha.
    unfold kbind at 1.
    destruct ((prev_action pe >=? 0) && (prev_action pe <? NUM_ACTIONS)).
    + unfold kbind at 1, emit at 1, kret at 1.
      apply Hfinal; [reflexivity |].
      simpl. rewrite Ha. simpl. exact Hc.
    + unfold kret at 1.
      apply Hfinal; [reflexivity |].
      rewrite Ha. simpl. exact Hc.
Qed.

(** The body of the loop never changes which pids the table holds, except
    for linking in the pid of the task at hand when it is new. *)
Lemma rl_worker_body_pids (cfg : params) (p : task_struct) (k : kstate) :
  pid <$> pid_table (snd (rl_worker_body cfg p k)) = pid <$> pid_table k \/
  (pid_absent (task_pid p) (pid_table k) /\
   pid <$> pid_table (snd (rl_worker_body cfg p k))
   = task_pid p :: (pid <$> pid_table k)).
Proof.
  rewrite !rl_worker_body_pids_get.
  destruct ((exit_state p =? EXIT_ZOMBIE) || (exit_state p =? EXIT_DEAD));
    [left; reflexivity |].
  apply get_pid_entry_pids.
Qed.

Lemma rl_worker_body_unique (cfg : params) (p : task_struct) (k : kstate) :
  unique_pids (pid_table k) ->
  unique_pids (pid_table (snd (rl_worker_body cfg p k))).
Proof.
  unfold unique_pids. intros Huniq.
  destruct (rl_worker_body_pids cfg p k) as [-> | [Habs ->]]; [exact Huniq |].
  apply NoDup_cons. split; [apply pid_absent_not_elem; exact Habs | exact Huniq].
Qed.

Lemma for_each_process_unique (cfg : params) (ps : list task_struct)
      (k : kstate) :
  unique_pids (pid_table k) ->
  unique_pids (pid_table (snd (for_each_process cfg ps k))).
Proof.
  revert k. induction ps as [| p ps IH]; intros k Huniq; simpl.
  - exact Huniq.
  - unfold kbind.
    pose proof (rl_worker_body_unique cfg p k Huniq) as Hb.
    destruct (rl_worker_body cfg p k) as [p' k1]. simpl in Hb.
    specialize (IH k1 Hb).
    destruct (for_each_process cfg ps k1) as [ps' k2]. exact IH.
Qed.

Lemma rl_worker_unique (cfg : params)
      (sleeps : list (list task_struct -> list task_struct))
      (ps : list task_struct) (k : kstate) :
  unique_pids (pid_table k) ->
  unique_pids (pid_table (snd (rl_worker cfg sleeps ps k))).
Proof.
  revert ps k. induction sleeps as [| host sleeps IH]; intros ps k Huniq; simpl.
  - exact Huniq.
  - unfold kbind.
    pose proof (for_each_process_unique cfg ps k Huniq) as Ht.
    destruct (for_each_process cfg ps k) as [ps' k1]. apply IH. exact Ht.
Qed.

Lemma list_del_pid_sublist (p : Z) (t : list pid_entry) :
  sublist (list_del_pid p t) t.
Proof.
  induction t as [| e t IH]; simpl.
  - constructor.
  - destruct (pid e =? p).
    + apply sublist_cons. reflexivity.
    + apply sublist_skip. exact IH.
Qed.

Lemma remove_pid_entry_unique (p : Z) (k : kstate) :
  unique_pids (pid_table k) ->
  unique_pids (pid_table (snd (remove_pid_entry p k))).
Proof.
  unfold unique_pids, remove_pid_entry, kbind, get_table, put_table. simpl.
  intros Huniq. eapply sublist_NoDup; [exact Huniq |].
  apply fmap_sublist, list_del_pid_sublist.
Qed.

(** C8.  The table never holds two entries with one pid: the property is
    kept by [get_pid_entry], by any run of the worker, by
    [remove_pid_entry] and by [free_all_entries].  When the pid is present
    [get_pid_entry] returns the existing node and changes nothing; when it
    is absent and memory is granted it links exactly one new node, with
    pid set, [prev_runtime] 0, an all-zero table, [prev_state] LOW and
    [prev_action] NOOP (when memory is refused it returns NULL and links
    nothing); and a second call for the same pid returns the node of the
    first call and leaves the table as it is. *)
Theorem get_pid_entry_at_most_one_per_pid (p : Z) (k : kstate) :
  unique_pids (pid_table k) ->
  unique_pids (pid_table (snd (get_pid_entry p k))) /\
  (forall (cfg : params)
          (sleeps : list (list task_struct -> list task_struct))
          (ps : list task_struct),
      unique_pids (pid_table (snd (rl_worker cfg sleeps ps k)))) /\
  unique_pids (pid_table (snd (remove_pid_entry p k))) /\
  unique_pids (pid_table (snd (free_all_entries k))) /\
  (forall (i : nat) (e : pid_entry),
      pid_table k !! i = Some e -> pid e = p ->
      get_pid_entry p k = (Some (i, e), k)) /\
  (pid_absent p (pid_table k) ->
   kzalloc_ok k (kzalloc_next k) = true ->
   fst (get_pid_entry p k) = Some (0%nat, new_pid_entry p) /\
   pid_table (snd (get_pid_entry p k)) = new_pid_entry p :: pid_table k /\
   new_pid_entry p
   = mk_pid_entry p 0 [[0; 0; 0]; [0; 0; 0]; [0; 0; 0]] RL_STATE_LOW RL_NOOP) /\
  (pid_absent p (pid_table k) ->
   kzalloc_ok k (kzalloc_next k) = false ->
   fst (get_pid_entry p k) = None /\
   pid_table (snd (get_pid_entry p k)) = pid_table k) /\
  (forall (i : nat) (e : pid_entry),
      fst (get_pid_entry p k) = Some (i, e) ->
      get_pid_entry p (snd (get_pid_entry p k))
      = (Some (i, e), snd (get_pid_entry p k))).
Proof.
  intros Huniq.
  split; [apply get_pid_entry_unique; exact Huniq |].
  split; [intros cfg sleeps ps; apply rl_worker_unique; exact Huniq |].
  split; [apply remove_pid_entry_unique; exact Huniq |].
  split; [apply NoDup_nil_2 |].
  split.
  { intros i e Hi Hp. apply get_pid_entry_found.
    rewrite <- Hp. apply unique_pids_find; assumption. }
  split.
  { intros Habs Hok. rewrite (get_pid_entry_absent p k Habs), Hok.
    repeat split. }
  split.
  { intros Habs Hno. rewrite (get_pid_entry_absent p k Habs), Hno.
    repeat split. }
  intros i e Hret.
  destruct (get_pid_entry_points p k i e Hret) as [Hi Hp].
  apply get_pid_entry_found.
  pose proof (unique_pids_find _ i e (get_pid_entry_unique p k Huniq) Hi)
    as Hfind.
  rewrite Hp in Hfind. exact Hfind.
Qed.

Lemma get_pid_entry_at_most_one_per_pid_witness :
  get_pid_entry 7 (snd (get_pid_entry 7 (boot (fun _ => 0) (fun _ => true))))
  = (Some (0%nat, new_pid_entry 7),
     snd (get_pid_entry 7 (boot (fun _ => 0) (fun _ => true)))).
Proof.
  apply (get_pid_entry_at_most_one_per_pid
           7 (boot (fun _ => 0) (fun _ => true))).
  - apply NoDup_nil_2.
  - reflexivity.
Defined.

(** From module load on, whatever the host does, the worker's table has at
    most one entry per pid. *)
Corollary rl_worker_unique_from_boot
          (cfg : params) (rnd : nat -> Z) (alloc : nat -> bool)
          (sleeps : list (list task_struct -> list task_struct))
          (ps : list task_struct) :
  unique_pids (pid_table (snd (rl_worker cfg sleeps ps (boot rnd alloc)))).
Proof. apply rl_worker_unique. apply NoDup_nil_2. Qed.

(* ===================================================================== *)
(** ** The sampling loop *)
(* ===================================================================== *)

Lemma task_live_check (p : task_struct) :
  task_live p ->
  (exit_state p =? EXIT_ZOMBIE) || (exit_state p =? EXIT_DEAD) = false.
Proof.
  intros [Hz Hd].
  destruct (Z.eqb_spec (exit_state p) EXIT_ZOMBIE); [contradiction |].
  destruct (Z.eqb_spec (exit_state p) EXIT_DEAD); [contradiction |].
  reflexivity.
Qed.

(** The scan of the process list, cut in two. *)
Lemma for_each_process_app (cfg : params) (ps1 ps2 : list task_struct)
      (k : kstate) :
  for_each_process cfg (ps1 ++ ps2) k
  = (fst (for_each_process cfg ps1 k)
     ++ fst (for_each_process cfg ps2 (snd (for_each_process cfg ps1 k))),
     snd (for_each_process cfg ps2 (snd (for_each_process cfg ps1 k)))).
Proof.
  revert k. induction ps1 as [| p ps1 IH]; intros k; simpl.
  - destruct (for_each_process cfg ps2 k); reflexivity.
  - unfold kbind. destruct (rl_worker_body cfg p k) as [p' k1].
    rewrite IH.
    destruct (for_each_process cfg ps1 k1) as [ps1' k2]. simpl.
    reflexivity.
Qed.

Lemma for_each_process_cons (cfg : params) (p : task_struct)
      (ps : list task_struct) (k : kstate) :
  for_each_process cfg (p :: ps) k
  = (fst (rl_worker_body cfg p k)
     :: fst (for_each_process cfg ps (snd (rl_worker_body cfg p k))),
     snd (for_each_process cfg ps (snd (rl_worker_body cfg p k)))).
Proof.
  simpl. unfold kbind. destruct (rl_worker_body cfg p k) as [p' k1].
  cbn [fst snd]. destruct (for_each_process cfg ps k1); reflexivity.
Qed.

(** A task whose entry cannot be allocated is passed over. *)
Lemma rl_worker_body_nomem (cfg : params) (p : task_struct) (k : kstate) :
  task_live p ->
  pid_absent (task_pid p) (pid_table k) ->
  kzalloc_ok k (kzalloc_next k) = false ->
  rl_worker_body cfg p k = (p, after_kzalloc k).
Proof.
  intros Hlive Habs Hno. unfold rl_worker_body.
  rewrite (task_live_check p Hlive). unfold kbind.
  rewrite (get_pid_entry_absent (task_pid p) k Habs), Hno. reflexivity.
Qed.

(** C9.  When the scan of a tick reaches a live process whose pid has no
    entry and [kzalloc] fails, the body returns at once: the process is left
    as it was, no entry of the table changes and nothing is logged; the scan
    goes on with the remaining processes of the tick exactly as it would
    from that state, and the worker goes on with the next tick. *)
Theorem alloc_failure_skips_only_that_process
        (cfg : params) (pre post : list task_struct) (p : task_struct)
        (k0 : kstate) :
  task_live p ->
  pid_absent (task_pid p) (pid_table (snd (for_each_process cfg pre k0))) ->
  kzalloc_ok (snd (for_each_process cfg pre k0))
             (kzalloc_next (snd (for_each_process cfg pre k0))) = false ->
  let k := snd (for_each_process cfg pre k0) in
  rl_worker_body cfg p k = (p, after_kzalloc k) /\
  pid_table (after_kzalloc k) = pid_table k /\
  klog (after_kzalloc k) = klog k /\
  for_each_process cfg (pre ++ p :: post) k0
  = (fst (for_each_process cfg pre k0)
     ++ p :: fst (for_each_process cfg post (after_kzalloc k)),
     snd (for_each_process cfg post (after_kzalloc k))) /\
  (forall (host : list task_struct -> list task_struct)
          (sleeps : list (list task_struct -> list task_struct)),
      rl_worker cfg (host :: sleeps) (pre ++ p :: post) k0
      = rl_worker cfg sleeps
                  (host (fst (for_each_process cfg pre k0)
                         ++ p :: fst (for_each_process cfg post
                                                       (after_kzalloc k))))
                  (snd (for_each_process cfg post (after_kzalloc k)))).
Proof.
  intros Hlive Habs Hno k.
  pose proof (rl_worker_body_nomem cfg p k Hlive Habs Hno) as Hbody.
  assert (Hscan :
    for_each_process cfg (pre ++ p :: post) k0
    = (fst (for_each_process cfg pre k0)
       ++ p :: fst (for_each_process cfg post (after_kzalloc k)),
       snd (for_each_process cfg post (after_kzalloc k)))).
  { rewrite for_each_process_app, for_each_process_cons.
    fold k. rewrite Hbody. reflexivity. }
  repeat split; try assumption.
  intros host sleeps. simpl. unfold kbind. rewrite Hscan. reflexivity.
Qed.

Lemma alloc_failure_skips_only_that_process_witness :
  for_each_process default_params
                   ([] ++ mk_task 7 0 5 0 :: [mk_task 8 0 9 0])
                   (boot (fun _ => 0) (fun n => Nat.eqb n 1))
  = (fst (for_each_process default_params []
                           (boot (fun _ => 0) (fun n => Nat.eqb n 1)))
     ++ mk_task 7 0 5 0
     :: fst (for_each_process
               default_params [mk_task 8 0 9 0]
               (after_kzalloc
                  (snd (for_each_process
                          default_params []
                          (boot (fun _ => 0) (fun n => Nat.eqb n 1)))))),
     snd (for_each_process
            default_params [mk_task 8 0 9 0]
            (after_kzalloc
               (snd (for_each_process
                       default_params []
                       (boot (fun _ => 0) (fun n => Nat.eqb n 1))))))).
Proof.
  apply (alloc_failure_skips_only_that_process
           default_params [] [mk_task 8 0 9 0] (mk_task 7 0 5 0)
           (boot (fun _ => 0) (fun n => Nat.eqb n 1))).
  - split; discriminate.
  - constructor.
  - reflexivity.
Defined.

(** In that run the second process gets its entry although the first was
    refused one. *)
Example alloc_failure_then_next_process :
  pid_table
    (snd (for_each_process default_params
                           [mk_task 7 0 5 0; mk_task 8 0 9 0]
                           (boot (fun _ => 0) (fun n => Nat.eqb n 1))))
  = [mk_pid_entry 8 9 zero_qtable RL_STATE_LOW RL_NOOP].
Proof. vm_compute. reflexivity. Qed.

Lemma set_pid_table_same (k : kstate) : set_pid_table (pid_table k) k = k.
Proof. destruct k; reflexivity. Qed.

(** The first-observation branch: only [prev_runtime] is recorded. *)
Lemma rl_worker_body_first_observation
      (cfg : params) (p : task_struct) (k : kstate) (i : nat) (e : pid_entry) :
  task_live p ->
  list_find (fun e0 : pid_entry => pid e0 = task_pid p) (pid_table k)
  = Some (i, e) ->
  prev_runtime e = 0 ->
  rl_worker_body cfg p k
  = (p, set_pid_table
          (<[i := set_prev_runtime (to_u64 (sum_exec_runtime p)) e]>
             (pid_table k)) k).
Proof.
  intros Hlive Hfind Hzero. unfold rl_worker_body.
  rewrite (task_live_check p Hlive). unfold kbind at 1.
  rewrite (get_pid_entry_found (task_pid p) k i e Hfind).
  rewrite Hzero. reflexivity.
Qed.

Lemma rl_worker_body_zero_runtime_seen
      (cfg : params) (p : task_struct) (k : kstate) (i : nat) (e : pid_entry) :
  task_live p ->
  sum_exec_runtime p = 0 ->
  list_find (fun e0 : pid_entry => pid e0 = task_pid p) (pid_table k)
  = Some (i, e) ->
  prev_runtime e = 0 ->
  rl_worker_body cfg p k = (p, k).
Proof.
  intros Hlive Hrt Hfind Hzero.
  rewrite (rl_worker_body_first_observation cfg p k i e Hlive Hfind Hzero).
  rewrite Hrt. change (to_u64 0) with 0.
  replace (set_prev_runtime 0 e) with e
    by (destruct e; simpl in Hzero; subst; reflexivity).
  apply list_find_Some in Hfind as (Hi & _).
  rewrite (list_insert_id _ _ _ Hi), set_pid_table_same. reflexivity.
Qed.

Lemma rl_worker_idle_zero_runtime
      (cfg : params) (p : task_struct) (k : kstate) (i : nat) (e : pid_entry)
      (n : nat) :
  task_live p ->
  sum_exec_runtime p = 0 ->
  list_find (fun e0 : pid_entry => pid e0 = task_pid p) (pid_table k)
  = Some (i, e) ->
  prev_runtime e = 0 ->
  rl_worker cfg (replicate n host_idle) [p] k = ([p], k).
Proof.
  intros Hlive Hrt Hfind Hzero. induction n as [| n IH]; simpl.
  - reflexivity.
  - unfold kbind.
    rewrite (rl_worker_body_zero_runtime_seen cfg p k i e Hlive Hrt Hfind Hzero).
    exact IH.
Qed.


(** The learning branch: the log of one processed sample.  The entry at
    hand has been sampled before, so the body classifies the delta, chooses
    and applies an action and, when [prev_action] passes the guard, calls
    [q_update] on the previous state and action with the reward of the
    delta just measured. *)
Lemma rl_worker_body_processed_log
      (cfg : params) (p : task_struct) (k : kstate) (i : nat) (pe : pid_entry) :
  task_live p ->
  list_find (fun e0 : pid_entry => pid e0 = task_pid p) (pid_table k)
  = Some (i, pe) ->
  prev_runtime pe <> 0 ->
  let delta :=
    runtime_delta (to_u64 (sum_exec_runtime p)) (prev_runtime pe) in
  let st := cpu_delta_to_state delta in
  let action := fst (choose_action cfg pe st k) in
  klog (snd (rl_worker_body cfg p k))
  = klog k
    ++ renice_events cfg p action
    ++ (if prev_action_valid pe
        then [EvQUpdate (pid pe) (prev_state pe) (prev_action pe)
                        (delta_reward delta) st]
        else []).
Proof.
  intros Hlive Hfind Hnz delta st action. unfold rl_worker_body.
  rewrite (task_live_check p Hlive). unfold kbind at 1.
  rewrite (get_pid_entry_found (task_pid p) k i pe Hfind).
  destruct (Z.eqb_spec (prev_runtime pe) 0) as [Hz | _]; [contradiction |].
  fold delta. fold st. unfold kbind at 1.
  pose proof (choose_action_keeps cfg pe st k) as (_ & Hclog & _).
  subst action.
  destruct (choose_action cfg pe st k) as [action k2]. simpl in Hclog.
  cbn [fst]. unfold kbind at 1.
  pose proof (apply_action_to_task_log cfg p action k2) as Ha.
  destruct (apply_action_to_task cfg p action k2) as [p' k3]. simpl in Ha.
  fold (prev_action_valid pe). unfold renice_events.
  unfold kbind at 1.
  destruct (prev_action_valid pe).
  - unfold kbind, emit, kret, store_entry, get_table, put_table. simpl.
    rewrite Ha. simpl. rewrite Hclog, <- app_assoc. reflexivity.
  - unfold kbind, kret, store_entry, get_table, put_table. simpl.
    rewrite Ha. simpl. rewrite Hclog, app_nil_r. reflexivity.
Qed.

Lemma runtime_delta_range (curr prev : Z) :
  in_u64 (runtime_delta curr prev).
Proof.
  unfold runtime_delta. destruct (curr >=? prev).
  - apply to_u64_range.
  - unfold_ints. lia.
Qed.

Lemma runtime_delta_max (curr prev : Z) :
  in_u64 curr -> in_u64 prev ->
  runtime_delta curr prev = Z.max 0 (curr - prev).
Proof.
  intros Hc Hp. unfold runtime_delta.
  destruct (Z.geb_spec curr prev).
  - rewrite to_u64_id by (unfold_ints; lia). lia.
  - lia.
Qed.

(** On an [unsigned long long] delta the reward is minus the delta divided
    by 1,000,000, the division truncating. *)
Lemma delta_reward_quot (delta : Z) :
  in_u64 delta -> delta_reward delta = - (Z.quot delta 1000000).
Proof.
  intros Hd. unfold delta_reward.
  rewrite Z.quot_div_nonneg by (unfold_ints; lia).
  assert (Hq : 0 <= delta / 1000000 < 18446744073710).
  { unfold_ints. split.
    - apply Z.div_pos; lia.
    - apply Z.div_lt_upper_bound; lia. }
  rewrite (to_long_id (delta / 1000000)) by (unfold_ints; lia).
  apply to_long_id. unfold_ints. lia.
Qed.

Lemma update_rewards_renice (cfg : params) (task : task_struct) (action : Z) :
  update_rewards (renice_events cfg task action) = [].
Proof. unfold renice_events. destruct (_ =? _); reflexivity. Qed.

Lemma update_rewards_app (l1 l2 : list kevent) :
  update_rewards (l1 ++ l2) = update_rewards l1 ++ update_rewards l2.
Proof. unfold update_rewards. apply omap_app. Qed.

(** C7, as the code has it.  On a processed sample the delta is
    [max (0, curr - prev_runtime)], and what the body appends to the log
    holds one [q_update] call when [prev_action] passes the guard and none
    otherwise; the reward of that call is [-(delta / 1000000)], the
    division truncating, where [delta] is the delta measured at this very
    sample.  In particular a sample whose own delta is 500,000 ns hands over
    reward 0. *)
Theorem reward_is_minus_current_delta_ms
        (cfg : params) (p : task_struct) (k : kstate) (i : nat)
        (pe : pid_entry) :
  task_live p ->
  list_find (fun e0 : pid_entry => pid e0 = task_pid p) (pid_table k)
  = Some (i, pe) ->
  prev_runtime pe <> 0 ->
  let delta :=
    runtime_delta (to_u64 (sum_exec_runtime p)) (prev_runtime pe) in
  0 <= delta /\
  (in_u64 (prev_runtime pe) ->
   delta = Z.max 0 (to_u64 (sum_exec_runtime p) - prev_runtime pe)) /\
  (exists evs : list kevent,
      klog (snd (rl_worker_body cfg p k)) = klog k ++ evs /\
      update_rewards evs
      = if prev_action_valid pe then [- (Z.quot delta 1000000)] else []) /\
  (delta = 500000 ->
   exists evs : list kevent,
     klog (snd (rl_worker_body cfg p k)) = klog k ++ evs /\
     update_rewards evs = if prev_action_valid pe then [0] else []).
Proof.
  intros Hlive Hfind Hnz delta.
  pose proof (runtime_delta_range (to_u64 (sum_exec_runtime p))
                                  (prev_runtime pe)) as Hrange.
  fold delta in Hrange.
  assert (Hlog : exists evs : list kevent,
             klog (snd (rl_worker_body cfg p k)) = klog k ++ evs /\
             update_rewards evs
             = if prev_action_valid pe
               then [- (Z.quot delta 1000000)] else []).
  { eexists. split.
    - apply (rl_worker_body_processed_log cfg p k i pe Hlive Hfind Hnz).
    - rewrite update_rewards_app, update_rewards_renice. fold delta.
      destruct (prev_action_valid pe); simpl; [| reflexivity].
      rewrite (delta_reward_quot delta Hrange). reflexivity. }
  split; [unfold in_u64 in Hrange; lia |].
  split.
  { intros Hprev. apply runtime_delta_max; [apply to_u64_range | exact Hprev]. }
  split; [exact Hlog |].
  intros Hd. rewrite Hd in Hlog. exact Hlog.
Qed.

Lemma reward_is_minus_current_delta_ms_witness :
  exists evs : list kevent,
    klog (snd (rl_worker_body
                 default_params (mk_task 7 0 52000001 0)
                 (mk_kstate [mk_pid_entry 7 500001 zero_qtable
                                          RL_STATE_LOW RL_DEC_NICE]
                            (fun _ => 999) 0 (fun _ => true) 0 [])))
    = klog (mk_kstate [mk_pid_entry 7 500001 zero_qtable
                                    RL_STATE_LOW RL_DEC_NICE]
                      (fun _ => 999) 0 (fun _ => true) 0 [])
      ++ evs /\
    update_rewards evs = [-51].
Proof.
  refine (proj1 (proj2 (proj2 (reward_is_minus_current_delta_ms
                                 default_params (mk_task 7 0 52000001 0)
                                 (mk_kstate
                                    [mk_pid_entry 7 500001 zero_qtable
                                                  RL_STATE_LOW RL_DEC_NICE]
                                    (fun _ => 999) 0 (fun _ => true) 0 [])
                                 0%nat
                                 (mk_pid_entry 7 500001 zero_qtable
                                               RL_STATE_LOW RL_DEC_NICE)
                                 _ _ _)))).
  - split; discriminate.
  - reflexivity.
  - discriminate.
Defined.

(** C7 fails as worded.  A process is sampled at cumulative CPU times 1,
    500,001 and 52,000,001 ns.  The second sample has delta 500,000 ns and
    hands reward 0 to [q_update].  At the third sample the prior delta is
    that 500,000 ns, yet the reward handed to [q_update] is -51, from the
    delta 51,500,000 ns of the third sample itself, and not the 0 that the
    prior delta would give. *)
Lemma reward_ignores_prior_delta :
  runtime_delta 500001 1 = 500000 /\
  runtime_delta 52000001 500001 = 51500000 /\
  update_rewards
    (klog (snd (rl_worker (mk_params 200 900 0 1000 5)
                          [host_runs_to 500001; host_idle]
                          [mk_task 7 0 1 0]
                          (boot (fun _ => 0) (fun _ => true)))))
  = [0] /\
  update_rewards
    (klog (snd (rl_worker (mk_params 200 900 0 1000 5)
                          [host_runs_to 500001; host_runs_to 52000001;
                           host_idle]
                          [mk_task 7 0 1 0]
                          (boot (fun _ => 0) (fun _ => true)))))
  = [0; -51] /\
  -51 <> - (Z.quot 500000 1000000).
Proof. repeat split; vm_compute; try reflexivity; discriminate. Qed.

(** The entry that [get_pid_entry] creates passes the guard of the update:
    its [prev_action], [RL_NOOP], is one of the three actions. *)
Lemma new_pid_entry_passes_guard (p : Z) (t : Z) :
  prev_action_valid (set_prev_runtime t (new_pid_entry p)) = true.
Proof. reflexivity. Qed.

(** Hence the first processed sample of every process calls [q_update] on
    the pair (LOW, NOOP) that no sample ever produced. *)
Lemma first_processed_sample_updates
      (cfg : params) (p : task_struct) (k : kstate) (i : nat) (t : Z) :
  task_live p ->
  list_find (fun e0 : pid_entry => pid e0 = task_pid p) (pid_table k)
  = Some (i, set_prev_runtime t (new_pid_entry (task_pid p))) ->
  t <> 0 ->
  let delta := runtime_delta (to_u64 (sum_exec_runtime p)) t in
  EvQUpdate (task_pid p) RL_STATE_LOW RL_NOOP (delta_reward delta)
            (cpu_delta_to_state delta)
  ∈ klog (snd (rl_worker_body cfg p k)).
Proof.
  intros Hlive Hfind Hnz delta.
  rewrite (rl_worker_body_processed_log
             cfg p k i (set_prev_runtime t (new_pid_entry (task_pid p)))
             Hlive Hfind Hnz).
  rewrite new_pid_entry_passes_guard.
  rewrite !elem_of_app. right. right. apply list_elem_of_singleton.
  reflexivity.
Qed.

(** C1 fails on the code.  A process is first seen at cumulative CPU time
    1 ns and next at 5,000,001 ns.  At that second sample, its first
    processed one, the worker calls [q_update] for (LOW, NOOP) with reward
    -5, and the cell [qtable[LOW][NOOP]] of the entry goes from 0 to -1. *)
Theorem first_processed_sample_calls_q_update :
  klog (snd (rl_worker default_params
                       [host_runs_to 5000001; host_idle]
                       [mk_task 7 0 1 0]
                       (boot (fun _ => 999) (fun _ => true))))
  = [EvPrInfo 7 RL_DEC_NICE 0 (-5); EvSetUserNice 7 (-5);
     EvQUpdate 7 RL_STATE_LOW RL_NOOP (-5) RL_STATE_MED] /\
  pid_table (snd (rl_worker default_params
                            [host_runs_to 5000001; host_idle]
                            [mk_task 7 0 1 0]
                            (boot (fun _ => 999) (fun _ => true))))
  = [mk_pid_entry 7 5000001 [[0; 0; -1]; [0; 0; 0]; [0; 0; 0]]
                  RL_STATE_MED RL_DEC_NICE] /\
  pid_table (snd (rl_worker default_params
                            [host_idle]
                            [mk_task 7 0 1 0]
                            (boot (fun _ => 999) (fun _ => true))))
  = [mk_pid_entry 7 1 [[0; 0; 0]; [0; 0; 0]; [0; 0; 0]]
                  RL_STATE_LOW RL_NOOP].
Proof. repeat split; vm_compute; reflexivity. Qed.

(* ===================================================================== *)
(** ** Entries of other processes are left alone *)
(* ===================================================================== *)

Lemma entry_of_cons_ne (p0 : Z) (e : pid_entry) (t : list pid_entry) :
  pid e <> p0 -> entry_of p0 (e :: t) = entry_of p0 t.
Proof.
  intros Hne. unfold entry_of. simpl.
  rewrite decide_False by exact Hne.
  destruct (list_find (fun e0 : pid_entry => pid e0 = p0) t) as [[j y] |];
    reflexivity.
Qed.

Lemma entry_of_cons_eq (p0 : Z) (e : pid_entry) (t : list pid_entry) :
  pid e = p0 -> entry_of p0 (e :: t) = Some e.
Proof.
  intros Heq. unfold entry_of. simpl.
  rewrite decide_True by exact Heq. reflexivity.
Qed.

Lemma entry_of_insert_ne (p0 : Z) (t : list pid_entry) (i : nat)
      (e e' : pid_entry) :
  t !! i = Some e -> pid e <> p0 -> pid e' <> p0 ->
  entry_of p0 (<[i := e']> t) = entry_of p0 t.
Proof.
  revert i. induction t as [| x t IH]; intros [| i] Hi He He'; simpl in *;
    try discriminate.
  - injection Hi as ->. rewrite !entry_of_cons_ne by assumption. reflexivity.
  - destruct (decide (pid x = p0)) as [Hx | Hx].
    + rewrite !entry_of_cons_eq by exact Hx. reflexivity.
    + rewrite !entry_of_cons_ne by exact Hx. apply IH; assumption.
Qed.

Lemma entry_of_find (p0 : Z) (t : list pid_entry) (e : pid_entry) :
  entry_of p0 t = Some e ->
  exists i : nat,
    list_find (fun e0 : pid_entry => pid e0 = p0) t = Some (i, e).
Proof.
  unfold entry_of.
  destruct (list_find (fun e0 : pid_entry => pid e0 = p0) t) as [[j y] |];
    simpl; [| discriminate].
  intros [= ->]. exists j. reflexivity.
Qed.

Lemma get_pid_entry_frame (p p0 : Z) (k : kstate) :
  p <> p0 ->
  entry_of p0 (pid_table (snd (get_pid_entry p k)))
  = entry_of p0 (pid_table k).
Proof.
  intros Hne.
  destruct (list_find (fun e0 : pid_entry => pid e0 = p) (pid_table k))
    as [[j y] |] eqn:Hfind.
  - rewrite (get_pid_entry_found p k j y Hfind). reflexivity.
  - apply list_find_None in Hfind.
    rewrite (get_pid_entry_absent p k Hfind).
    destruct (kzalloc_ok k (kzalloc_next k)); simpl; [| reflexivity].
    apply entry_of_cons_ne. exact Hne.
Qed.

(** The table after the body of the loop: the table that [get_pid_entry]
    left, with at most the node of the task at hand rewritten. *)
Lemma rl_worker_body_table (cfg : params) (p : task_struct) (k : kstate) :
  task_live p ->
  exists t' : list pid_entry,
    pid_table (snd (rl_worker_body cfg p k)) = t' /\
    (t' = pid_table (snd (get_pid_entry (task_pid p) k)) \/
     exists (i : nat) (pe e' : pid_entry),
       pid_table (snd (get_pid_entry (task_pid p) k)) !! i = Some pe /\
       pid pe = task_pid p /\ pid e' = task_pid p /\
       t' = <[i := e']> (pid_table (snd (get_pid_entry (task_pid p) k)))).
Proof.
  intros Hlive. eexists. split; [reflexivity |].
  pose proof (get_pid_entry_points (task_pid p) k) as Hpt.
  remember (rl_worker_body cfg p k) as r eqn:Hr.
  unfold rl_worker_body in Hr. rewrite (task_live_check p Hlive) in Hr.
  unfold kbind at 1 in Hr.
  destruct (get_pid_entry (task_pid p) k) as [[[i pe] |] k1];
    simpl in Hpt; cbn [snd].
  2: { subst r. left. reflexivity. }
  destruct (Hpt i pe eq_refl) as [Hi Hpid].
  destruct (prev_runtime pe =? 0).
  - subst r. right.
    exists i, pe, (set_prev_runtime (to_u64 (sum_exec_runtime p)) pe).
    repeat split; assumption.
  - unfold kbind at 1 in Hr.
    pose proof (choose_action_keeps
                  cfg pe
                  (cpu_delta_to_state
                     (runtime_delta (to_u64 (sum_exec_runtime p))
                                    (prev_runtime pe))) k1) as (Hc & _).
    destruct (choose_action _ _ _ k1) as [action k2]. simpl in Hc.
    unfold kbind at 1 in Hr.
    pose proof (apply_action_to_task_log cfg p action k2) as Ha.
    destruct (apply_action_to_task cfg p action k2) as [p' k3]. simpl in Ha.
    assert (Hk3 : pid_table k3 = pid_table k1).
    { rewrite Ha. simpl. exact Hc. }
    unfold kbind at 1 in Hr.
    destruct ((prev_action pe >=? 0) && (prev_action pe <? NUM_ACTIONS)).
    + unfold kbind, emit, kret, store_entry, get_table, put_table in Hr.
      simpl in Hr. subst r. simpl. right. rewrite Hk3.
      eexists i, pe, _. repeat split; [exact Hi | exact Hpid | exact Hpid].
    + unfold kbind, kret, store_entry, get_table, put_table in Hr.
      simpl in Hr. subst r. simpl. right. rewrite Hk3.
      eexists i, pe, _. repeat split; [exact Hi | exact Hpid | exact Hpid].
Qed.

(** The body of the loop run on one task leaves the entry of every other
    pid as it is. *)
Lemma rl_worker_body_frame (cfg : params) (p : task_struct) (k : kstate)
      (p0 : Z) :
  task_pid p <> p0 ->
  entry_of p0 (pid_table (snd (rl_worker_body cfg p k)))
  = entry_of p0 (pid_table k).
Proof.
  intros Hne.
  destruct ((exit_state p =? EXIT_ZOMBIE) || (exit_state p =? EXIT_DEAD))
    eqn:Hdead.
  { unfold rl_worker_body. rewrite Hdead. reflexivity. }
  assert (Hlive : task_live p).
  { apply orb_false_elim in Hdead as [Hz Hd].
    split; [apply Z.eqb_neq; exact Hz | apply Z.eqb_neq; exact Hd]. }
  destruct (rl_worker_body_table cfg p k Hlive)
    as (t' & -> & [-> | (i & pe & e' & Hi & Hpe & He' & ->)]).
  - apply get_pid_entry_frame. exact Hne.
  - rewrite (entry_of_insert_ne p0 _ i pe e' Hi) by congruence.
    apply get_pid_entry_frame. exact Hne.
Qed.

(** The body of the loop hands the task back with at most its nice value
    changed. *)
Lemma rl_worker_body_task (cfg : params) (p : task_struct) (k : kstate) :
  exists n : Z, fst (rl_worker_body cfg p k) = set_nice n p.
Proof.
  assert (Hsame : p = set_nice (nice p) p) by (destruct p; reflexivity).
  remember (rl_worker_body cfg p k) as r eqn:Hr.
  unfold rl_worker_body in Hr.
  destruct ((exit_state p =? EXIT_ZOMBIE) || (exit_state p =? EXIT_DEAD)).
  { subst r. exists (nice p). exact Hsame. }
  unfold kbind at 1 in Hr.
  destruct (get_pid_entry (task_pid p) k) as [[[i pe] |] k1].
  2: { subst r. exists (nice p). exact Hsame. }
  destruct (prev_runtime pe =? 0).
  { unfold kbind in Hr. destruct (store_entry _ _ k1) as [u k2].
    subst r. exists (nice p). exact Hsame. }
  unfold kbind at 1 in Hr.
  destruct (choose_action _ _ _ k1) as [action k2].
  unfold kbind at 1 in Hr.
  assert (Ht : exists n : Z,
             fst (apply_action_to_task cfg p action k2) = set_nice n p).
  { unfold apply_action_to_task. destruct (negb _).
    - eexists. reflexivity.
    - exists (nice p). exact Hsame. }
  destruct (apply_action_to_task cfg p action k2) as [p' k3].
  simpl in Ht. destruct Ht as [n ->].
  exists n. unfold kbind at 1 in Hr.
  destruct ((prev_action pe >=? 0) && (prev_action pe <? NUM_ACTIONS));
    unfold kbind, emit, kret, store_entry, get_table, put_table in Hr;
    subst r; reflexivity.
Qed.

Lemma rl_worker_body_zero_entry (cfg : params) (q : task_struct)
      (k : kstate) (p0 : Z) (e : pid_entry) :
  (task_pid q = p0 -> task_live q -> sum_exec_runtime q = 0) ->
  entry_of p0 (pid_table k) = Some e ->
  prev_runtime e = 0 ->
  entry_of p0 (pid_table (snd (rl_worker_body cfg q k))) = Some e.
Proof.
  intros Hq He Hzero.
  destruct (decide (task_pid q = p0)) as [Hpid | Hpid].
  - destruct ((exit_state q =? EXIT_ZOMBIE) || (exit_state q =? EXIT_DEAD))
      eqn:Hdead.
    { unfold rl_worker_body. rewrite Hdead. exact He. }
    assert (Hlive : task_live q).
    { apply orb_false_elim in Hdead as [Hz Hd].
      split; [apply Z.eqb_neq; exact Hz | apply Z.eqb_neq; exact Hd]. }
    destruct (entry_of_find p0 _ e He) as [i Hfind]. rewrite <- Hpid in Hfind.
    rewrite (rl_worker_body_zero_runtime_seen
               cfg q k i e Hlive (Hq Hpid Hlive) Hfind Hzero).
    exact He.
  - rewrite (rl_worker_body_frame cfg q k p0 Hpid). exact He.
Qed.

Lemma for_each_process_zero_entry (cfg : params) (ps : list task_struct)
      (k : kstate) (p0 : Z) (e : pid_entry) :
  zero_runtime_for p0 ps ->
  entry_of p0 (pid_table k) = Some e ->
  prev_runtime e = 0 ->
  entry_of p0 (pid_table (snd (for_each_process cfg ps k))) = Some e /\
  zero_runtime_for p0 (fst (for_each_process cfg ps k)).
Proof.
  revert k. induction ps as [| q ps IH]; intros k Hps He Hzero.
  - split; [exact He | constructor].
  - apply Forall_cons in Hps as [Hq Hps].
    rewrite for_each_process_cons. cbn [fst snd].
    pose proof (rl_worker_body_zero_entry cfg q k p0 e Hq He Hzero) as Hb.
    destruct (IH _ Hps Hb Hzero) as [IHe IHps].
    split; [exact IHe |].
    apply Forall_cons. split; [| exact IHps].
    destruct (rl_worker_body_task cfg q k) as [n ->]. exact Hq.
Qed.

(** However many ticks pass and whatever other processes run, as long as the
    host keeps a pid at cumulative CPU time 0 the entry of that pid stays
    the unsampled entry it was. *)
Lemma rl_worker_zero_entry (cfg : params)
      (sleeps : list (list task_struct -> list task_struct))
      (ps : list task_struct) (k : kstate) (p0 : Z) (e : pid_entry) :
  hosts_keep_zero p0 sleeps ->
  zero_runtime_for p0 ps ->
  entry_of p0 (pid_table k) = Some e ->
  prev_runtime e = 0 ->
  entry_of p0 (pid_table (snd (rl_worker cfg sleeps ps k))) = Some e.
Proof.
  revert ps k. induction sleeps as [| host sleeps IH];
    intros ps k Hhosts Hps He Hzero; simpl.
  - exact He.
  - apply Forall_cons in Hhosts as [Hhost Hhosts].
    unfold kbind.
    destruct (for_each_process_zero_entry cfg ps k p0 e Hps He Hzero)
      as [Ht Hps'].
    destruct (for_each_process cfg ps k) as [ps' k1]. cbn [fst snd] in *.
    apply IH; [exact Hhosts | apply Hhost; exact Hps' | exact Ht | exact Hzero].
Qed.

(** C10, as the code has it.  Take a live process whose cumulative CPU time
    reads 0 and that takes the first-observation branch: its entry still has
    [prev_runtime = 0], or it has no entry yet.  If its
    entry still has [prev_runtime = 0], the body of the loop stores 0 again
    and changes nothing: same table, same log (no renice, no [q_update]), no
    random number drawn (no action chosen).  If it has no entry yet, the
    only effect is the new default entry, whose [prev_runtime] is 0.  So for
    as many ticks as the time stays 0 the process is taken for a first
    observation each time and the state after the first tick is the state
    after all of them.  With other processes around it is the same: over
    any number of ticks in which the host keeps the pid at time 0, the entry
    of the pid stays the unsampled entry it was, with its table, previous
    state and previous action untouched. *)
Theorem zero_runtime_stays_first_observation
        (cfg : params) (p : task_struct) (k : kstate) :
  task_live p ->
  sum_exec_runtime p = 0 ->
  (forall (i : nat) (e : pid_entry),
      list_find (fun e0 : pid_entry => pid e0 = task_pid p) (pid_table k)
      = Some (i, e) ->
      prev_runtime e = 0 ->
      rl_worker_body cfg p k = (p, k) /\
      forall n : nat, rl_worker cfg (replicate n host_idle) [p] k = ([p], k)) /\
  (pid_absent (task_pid p) (pid_table k) ->
   kzalloc_ok k (kzalloc_next k) = true ->
   rl_worker_body cfg p k
   = (p, set_pid_table (new_pid_entry (task_pid p) :: pid_table k)
                       (after_kzalloc k)) /\
   prev_runtime (new_pid_entry (task_pid p)) = 0 /\
   forall n : nat,
     rl_worker cfg (replicate (S n) host_idle) [p] k
     = ([p], set_pid_table (new_pid_entry (task_pid p) :: pid_table k)
                           (after_kzalloc k))) /\
  (forall (sleeps : list (list task_struct -> list task_struct))
          (ps : list task_struct) (e : pid_entry),
      hosts_keep_zero (task_pid p) sleeps ->
      zero_runtime_for (task_pid p) ps ->
      entry_of (task_pid p) (pid_table k) = Some e ->
      prev_runtime e = 0 ->
      entry_of (task_pid p) (pid_table (snd (rl_worker cfg sleeps ps k)))
      = Some e).
Proof.
  intros Hlive Hrt. split; [| split].
  3: { intros sleeps ps e. apply rl_worker_zero_entry. }
  - intros i e Hfind Hzero. split.
    + exact (rl_worker_body_zero_runtime_seen cfg p k i e Hlive Hrt Hfind Hzero).
    + intros n.
      exact (rl_worker_idle_zero_runtime cfg p k i e n Hlive Hrt Hfind Hzero).
  - intros Habs Hok.
    assert (Hbody :
      rl_worker_body cfg p k
      = (p, set_pid_table (new_pid_entry (task_pid p) :: pid_table k)
                          (after_kzalloc k))).
    { unfold rl_worker_body.
      rewrite (task_live_check p Hlive). unfold kbind at 1.
      rewrite (get_pid_entry_absent (task_pid p) k Habs), Hok.
      simpl. rewrite Hrt. reflexivity. }
    split; [exact Hbody |]. split; [reflexivity |].
    intros n. simpl. unfold kbind. rewrite Hbody.
    apply (rl_worker_idle_zero_runtime
             cfg p _ 0%nat (new_pid_entry (task_pid p)) n Hlive Hrt).
    + simpl. rewrite decide_True by reflexivity. reflexivity.
    + reflexivity.
Qed.

Lemma zero_runtime_stays_first_observation_witness :
  rl_worker default_params (replicate 4 host_idle) [mk_task 7 0 0 0]
            (boot (fun _ => 0) (fun _ => true))
  = ([mk_task 7 0 0 0],
     set_pid_table
       (new_pid_entry 7 :: pid_table (boot (fun _ => 0) (fun _ => true)))
       (after_kzalloc (boot (fun _ => 0) (fun _ => true)))).
Proof.
  refine (proj2 (proj2 (proj1 (proj2 (zero_runtime_stays_first_observation
                                        default_params (mk_task 7 0 0 0)
                                        (boot (fun _ => 0) (fun _ => true))
                                        _ _)) _ _)) 3%nat).
  - split; discriminate.
  - reflexivity.
  - constructor.
  - reflexivity.
Defined.

(** C10 fails as worded: reading cumulative CPU time 0 is not enough to be
    taken for a first observation.  A pid first seen at 1 ns reads 0 ns at
    the next tick (the pid was reused).  Its entry has [prev_runtime = 1], so
    the body skips the first-observation branch: the delta is clamped to 0
    and classified LOW, an action is chosen (one random number is drawn),
    the task is reniced from 0 to -5 and [q_update] is called.  Only then is
    [prev_runtime = 0] stored. *)
Lemma zero_runtime_with_stale_entry_is_processed :
  rl_worker default_params [host_idle] [mk_task 7 0 1 0]
            (boot (fun _ => 999) (fun _ => true))
  = ([mk_task 7 0 1 0],
     mk_kstate [mk_pid_entry 7 1 zero_qtable RL_STATE_LOW RL_NOOP]
               (fun _ => 999) 0 (fun _ => true) 1 []) /\
  host_runs_to 0 [mk_task 7 0 1 0] = [mk_task 7 0 0 0] /\
  fst (rl_worker default_params [host_runs_to 0; host_idle]
                 [mk_task 7 0 1 0] (boot (fun _ => 999) (fun _ => true)))
  = [mk_task 7 0 0 (-5)] /\
  klog (snd (rl_worker default_params [host_runs_to 0; host_idle]
                       [mk_task 7 0 1 0]
                       (boot (fun _ => 999) (fun _ => true))))
  = [EvPrInfo 7 RL_DEC_NICE 0 (-5); EvSetUserNice 7 (-5);
     EvQUpdate 7 RL_STATE_LOW RL_NOOP 0 RL_STATE_LOW] /\
  random_next (snd (rl_worker default_params [host_runs_to 0; host_idle]
                              [mk_task 7 0 1 0]
                              (boot (fun _ => 999) (fun _ => true))))
  = 1%nat /\
  pid_table (snd (rl_worker default_params [host_runs_to 0; host_idle]
                            [mk_task 7 0 1 0]
                            (boot (fun _ => 999) (fun _ => true))))
  = [mk_pid_entry 7 0 zero_qtable RL_STATE_LOW RL_DEC_NICE].
Proof. repeat split; vm_compute; reflexivity. Qed.

(* ===================================================================== *)
(** ** More on the table store: removal, drain, lookup after insertion *)
(* ===================================================================== *)

Lemma entry_of_None (p : Z) (t : list pid_entry) :
  entry_of p t = None <-> pid_absent p t.
Proof.
  unfold entry_of, pid_absent. split.
  - intros H.
    apply (proj1 (list_find_None (fun e : pid_entry => pid e = p) t)).
    destruct (list_find (fun e : pid_entry => pid e = p) t) as [[j y] |];
      [cbn in H; discriminate H | reflexivity].
  - intros H.
    rewrite (proj2 (list_find_None
                      (fun e : pid_entry => pid e = p) t) H).
    reflexivity.
Qed.

Lemma list_del_pid_absent (p : Z) (t : list pid_entry) :
  pid_absent p t -> list_del_pid p t = t.
Proof.
  induction t as [| e t IH]; intros Habs; simpl; [reflexivity |].
  apply Forall_cons in Habs as [He Ht].
  destruct (Z.eqb_spec (pid e) p); [contradiction |].
  rewrite IH by exact Ht. reflexivity.
Qed.

Lemma entry_of_del_same (p : Z) (t : list pid_entry) :
  unique_pids t -> entry_of p (list_del_pid p t) = None.
Proof.
  unfold unique_pids.
  induction t as [| e t IH]; intros Huniq; simpl; [reflexivity |].
  rewrite fmap_cons in Huniq. apply NoDup_cons in Huniq as [Hnotin Huniq].
  destruct (Z.eqb_spec (pid e) p) as [Heq | Hne].
  - apply entry_of_None. apply Forall_forall. intros x Hx Hpid.
    apply Hnotin. rewrite Heq, <- Hpid. apply list_elem_of_fmap_2. exact Hx.
  - rewrite entry_of_cons_ne by exact Hne. apply IH. exact Huniq.
Qed.

Lemma entry_of_del_other (p p0 : Z) (t : list pid_entry) :
  p0 <> p -> entry_of p0 (list_del_pid p t) = entry_of p0 t.
Proof.
  intros Hne. induction t as [| e t IH]; simpl; [reflexivity |].
  destruct (Z.eqb_spec (pid e) p) as [Heq | Hnp].
  - rewrite entry_of_cons_ne by congruence. reflexivity.
  - destruct (decide (pid e = p0)) as [H0 | H0].
    + rewrite !entry_of_cons_eq by exact H0. reflexivity.
    + rewrite !entry_of_cons_ne by exact H0. exact IH.
Qed.

Lemma list_del_pid_length (p : Z) (t : list pid_entry) (e : pid_entry) :
  entry_of p t = Some e -> S (length (list_del_pid p t)) = length t.
Proof.
  induction t as [| x t IH]; simpl; intros He.
  - discriminate.
  - destruct (Z.eqb_spec (pid x) p) as [Heq | Hne]; [reflexivity |].
    rewrite entry_of_cons_ne in He by exact Hne.
    simpl. rewrite IH by exact He. reflexivity.
Qed.

(** X1.  [remove_pid_entry] on a pid that has an entry, in a table with at
    most one entry per pid: afterwards the pid has no entry, the entry of
    every other pid is the one it was, the table is one node shorter, and
    nothing but the table has changed. *)
Theorem remove_pid_entry_present
        (p : Z) (k : kstate) (e : pid_entry) :
  unique_pids (pid_table k) ->
  entry_of p (pid_table k) = Some e ->
  entry_of p (pid_table (snd (remove_pid_entry p k))) = None /\
  (forall p0 : Z,
      p0 <> p ->
      entry_of p0 (pid_table (snd (remove_pid_entry p k)))
      = entry_of p0 (pid_table k)) /\
  S (length (pid_table (snd (remove_pid_entry p k)))) = length (pid_table k) /\
  snd (remove_pid_entry p k)
  = set_pid_table (pid_table (snd (remove_pid_entry p k))) k.
Proof.
  intros Huniq He.
  unfold remove_pid_entry, kbind, get_table, put_table. simpl.
  split; [apply entry_of_del_same; exact Huniq |].
  split; [intros p0 Hp0; apply entry_of_del_other; exact Hp0 |].
  split; [apply (list_del_pid_length p _ e); exact He | reflexivity].
Qed.

Lemma remove_pid_entry_present_witness :
  entry_of 7 (pid_table
                (snd (remove_pid_entry
                        7 (mk_kstate [new_pid_entry 8; new_pid_entry 7]
                                     (fun _ => 0) 0 (fun _ => true) 0 []))))
  = None.
Proof.
  refine (proj1 (remove_pid_entry_present
                   7 (mk_kstate [new_pid_entry 8; new_pid_entry 7]
                                (fun _ => 0) 0 (fun _ => true) 0 [])
                   (new_pid_entry 7) _ _)).
  - unfold unique_pids. simpl.
    apply NoDup_cons. split; [| apply NoDup_singleton].
    intros Hin. apply list_elem_of_singleton in Hin. discriminate.
  - reflexivity.
Defined.

(** X2.  [remove_pid_entry] on a pid that has no entry changes nothing. *)
Theorem remove_pid_entry_missing (p : Z) (k : kstate) :
  pid_absent p (pid_table k) ->
  remove_pid_entry p k = (tt, k).
Proof.
  intros Habs. unfold remove_pid_entry, kbind, get_table, put_table.
  rewrite (list_del_pid_absent p _ Habs), set_pid_table_same. reflexivity.
Qed.

Lemma remove_pid_entry_missing_witness :
  remove_pid_entry 9 (mk_kstate [new_pid_entry 8; new_pid_entry 7]
                                (fun _ => 0) 0 (fun _ => true) 0 [])
  = (tt, mk_kstate [new_pid_entry 8; new_pid_entry 7]
                   (fun _ => 0) 0 (fun _ => true) 0 []).
Proof.
  apply remove_pid_entry_missing.
  repeat constructor; discriminate.
Defined.

(** X3.  No learned state survives a removal or the drain: after
    [remove_pid_entry] of a pid (table with at most one entry per pid), and
    after [free_all_entries], a [get_pid_entry] for the pid that is granted
    memory links and returns a fresh default entry at the head. *)
Theorem get_pid_entry_after_removal_is_fresh (p : Z) (k : kstate) :
  unique_pids (pid_table k) ->
  kzalloc_ok k (kzalloc_next k) = true ->
  get_pid_entry p (snd (remove_pid_entry p k))
  = (Some (0%nat, new_pid_entry p),
     set_pid_table (new_pid_entry p :: list_del_pid p (pid_table k))
                   (after_kzalloc k)) /\
  get_pid_entry p (snd (free_all_entries k))
  = (Some (0%nat, new_pid_entry p),
     set_pid_table [new_pid_entry p] (after_kzalloc k)).
Proof.
  intros Huniq Hok. split.
  - rewrite get_pid_entry_absent.
    + unfold remove_pid_entry, kbind, get_table, put_table. simpl.
      rewrite Hok. reflexivity.
    + apply entry_of_None. unfold remove_pid_entry, kbind, get_table, put_table.
      simpl. apply entry_of_del_same. exact Huniq.
  - rewrite get_pid_entry_absent.
    + unfold free_all_entries, put_table. simpl. rewrite Hok. reflexivity.
    + constructor.
Qed.

Lemma get_pid_entry_after_removal_is_fresh_witness :
  get_pid_entry
    7 (snd (remove_pid_entry
              7 (mk_kstate [mk_pid_entry 7 5 [[-3; 0; 0]; [0; 0; 0]; [0; 0; 0]]
                                         RL_STATE_HIGH RL_INC_NICE]
                           (fun _ => 0) 0 (fun _ => true) 0 [])))
  = (Some (0%nat, new_pid_entry 7),
     set_pid_table
       (new_pid_entry 7
        :: list_del_pid
             7 [mk_pid_entry 7 5 [[-3; 0; 0]; [0; 0; 0]; [0; 0; 0]]
                             RL_STATE_HIGH RL_INC_NICE])
       (after_kzalloc
          (mk_kstate [mk_pid_entry 7 5 [[-3; 0; 0]; [0; 0; 0]; [0; 0; 0]]
                                   RL_STATE_HIGH RL_INC_NICE]
                     (fun _ => 0) 0 (fun _ => true) 0 []))).
Proof.
  refine (proj1 (get_pid_entry_after_removal_is_fresh
                   7 (mk_kstate
                        [mk_pid_entry 7 5 [[-3; 0; 0]; [0; 0; 0]; [0; 0; 0]]
                                      RL_STATE_HIGH RL_INC_NICE]
                        (fun _ => 0) 0 (fun _ => true) 0 []) _ _)).
  - apply NoDup_singleton.
  - reflexivity.
Defined.

(** X4.  What [get_pid_entry] returns is the first node of that pid in the
    table it leaves; it returns NULL exactly when the pid has no entry and
    [kzalloc] fails; and it never touches the entry of another pid. *)
Theorem get_pid_entry_lookup (p : Z) (k : kstate) :
  (forall (i : nat) (e : pid_entry),
      fst (get_pid_entry p k) = Some (i, e) ->
      list_find (fun e0 : pid_entry => pid e0 = p)
                (pid_table (snd (get_pid_entry p k))) = Some (i, e)) /\
  (fst (get_pid_entry p k) = None <->
   pid_absent p (pid_table k) /\ kzalloc_ok k (kzalloc_next k) = false) /\
  (forall p0 : Z,
      p0 <> p ->
      entry_of p0 (pid_table (snd (get_pid_entry p k)))
      = entry_of p0 (pid_table k)).
Proof.
  split; [| split].
  - destruct (list_find (fun e0 : pid_entry => pid e0 = p) (pid_table k))
      as [[j y] |] eqn:Hfind.
    + rewrite (get_pid_entry_found p k j y Hfind). simpl.
      intros i e [= <- <-]. exact Hfind.
    + apply list_find_None in Hfind.
      rewrite (get_pid_entry_absent p k Hfind).
      destruct (kzalloc_ok k (kzalloc_next k)); simpl; [| discriminate].
      intros i e [= <- <-]. rewrite decide_True by reflexivity. reflexivity.
  - destruct (list_find (fun e0 : pid_entry => pid e0 = p) (pid_table k))
      as [[j y] |] eqn:Hfind.
    + rewrite (get_pid_entry_found p k j y Hfind). simpl.
      split; [discriminate |]. intros [Habs _].
      apply entry_of_None in Habs. unfold entry_of in Habs.
      rewrite Hfind in Habs. discriminate.
    + apply list_find_None in Hfind.
      rewrite (get_pid_entry_absent p k Hfind).
      destruct (kzalloc_ok k (kzalloc_next k)); simpl.
      * split; [discriminate | intros [_ H]; discriminate].
      * split; [intros _; split; [exact Hfind | reflexivity] | reflexivity].
  - intros p0 Hp0. apply get_pid_entry_frame. congruence.
Qed.

Lemma get_pid_entry_lookup_witness :
  entry_of 8 (pid_table
                (snd (get_pid_entry
                        7 (mk_kstate [new_pid_entry 8]
                                     (fun _ => 0) 0 (fun _ => true) 0 []))))
  = entry_of 8 (pid_table (mk_kstate [new_pid_entry 8]
                                     (fun _ => 0) 0 (fun _ => true) 0 [])).
Proof.
  apply (get_pid_entry_lookup
           7 (mk_kstate [new_pid_entry 8] (fun _ => 0) 0 (fun _ => true) 0 [])).
  discriminate.
Defined.

(* ===================================================================== *)
(** ** More on the policy *)
(* ===================================================================== *)

Lemma choose_scan_in_range (pe : pid_entry) (st : rl_state) :
  0 <= snd (fold_left (choose_scan pe st) [0; 1; 2] (LONG_MIN, 0))
  < NUM_ACTIONS.
Proof.
  cbv beta iota zeta delta [fold_left choose_scan fst snd].
  remember (qtable_get (qtable pe) st 0) as x0 eqn:E0.
  remember (qtable_get (qtable pe) st 1) as x1 eqn:E1.
  remember (qtable_get (qtable pe) st 2) as x2 eqn:E2.
  remember LONG_MIN as lo eqn:Elo.
  repeat match goal with
         | |- context [ ?x >? ?y ] =>
             is_var x; is_var y; destruct (Z.gtb_spec x y); cbv beta iota
         end;
    unfold NUM_ACTIONS; lia.
Qed.


Lemma choose_action_in_range (cfg : params) (pe : pid_entry) (st : rl_state)
      (k : kstate) :
  0 <= fst (choose_action cfg pe st k) < NUM_ACTIONS.
Proof.
  unfold choose_action, kbind, get_random_u32, kret.
  destruct (_ <? _); simpl.
  - apply Z.mod_pos_bound. unfold NUM_ACTIONS. lia.
  - apply choose_scan_in_range.
Qed.


(** X6.  [r < epsilon_permille] compares as [u32].  So with
    [epsilon_permille] at 1000 or above, and also with any negative
    [epsilon_permille], [choose_action] never looks at the table: it always
    returns the second random number modulo 3. *)
Theorem choose_action_always_random
        (cfg : params) (pe : pid_entry) (st : rl_state) (k : kstate) :
  1000 <= epsilon_permille cfg < 2 ^ 31 \/
  - 2 ^ 31 <= epsilon_permille cfg < 0 ->
  choose_action cfg pe st k
  = (to_u32 (random_pool k (S (random_next k))) mod NUM_ACTIONS,
     after_draws 2 k).
Proof.
  intros Heps. unfold choose_action, kbind, get_random_u32, kret, after_draws.
  assert (Hu : 1000 <= to_u32 (epsilon_permille cfg)).
  { unfold_ints. destruct Heps as [Hpos | Hneg].
    - rewrite Z.mod_small; lia.
    - replace (epsilon_permille cfg)
        with (epsilon_permille cfg + 4294967296 - 1 * 4294967296) by lia.
      rewrite Zminus_mod, Z_mod_mult, Z.sub_0_r, Z.mod_mod by lia.
      rewrite Z.mod_small; lia. }
  pose proof (Z.mod_pos_bound
                (to_u32 (random_pool k (random_next k))) 1000) as Hr.
  destruct (Z.ltb_spec (to_u32 (random_pool k (random_next k)) mod 1000)
                       (to_u32 (epsilon_permille cfg))); [| lia].
  reflexivity.
Qed.

Lemma choose_action_always_random_witness :
  choose_action (mk_params 200 900 (-1) 1000 5)
                (mk_pid_entry 7 1 [[0; 0; 9]; [0; 0; 0]; [0; 0; 0]]
                              RL_STATE_LOW RL_NOOP)
                RL_STATE_LOW (boot (fun n => Z.of_nat n) (fun _ => true))
  = (to_u32 1 mod NUM_ACTIONS,
     after_draws 2 (boot (fun n => Z.of_nat n) (fun _ => true))).
Proof.
  apply (choose_action_always_random
           (mk_params 200 900 (-1) 1000 5)
           (mk_pid_entry 7 1 [[0; 0; 9]; [0; 0; 0]; [0; 0; 0]]
                         RL_STATE_LOW RL_NOOP)
           RL_STATE_LOW (boot (fun n => Z.of_nat n) (fun _ => true))).
  right. simpl. lia.
Defined.

(* ===================================================================== *)
(** ** More on the Q-value updater *)
(* ===================================================================== *)

Lemma qtable_set_get_id (q : list (list Z)) (s : rl_state) (a : Z) :
  wf_qtable q -> 0 <= a < NUM_ACTIONS ->
  qtable_set q s a (qtable_get q s a) = q.
Proof.
  intros Hwf Ha. destruct (wf_qtable_row q s Hwf) as (row & Hrow & Hlen & _).
  destruct (lookup_lt_is_Some_2 row (Z.to_nat a)) as [v Hv].
  { rewrite Hlen. unfold NUM_ACTIONS in *. lia. }
  unfold qtable_set, qtable_get. rewrite Hrow. simpl. rewrite Hv. simpl.
  apply list_eq. intros j.
  destruct (decide (j = Z.to_nat (rl_state_value s))) as [-> | Hj].
  - rewrite list_lookup_alter_eq, Hrow. simpl.
    rewrite (list_insert_id _ _ _ Hv). reflexivity.
  - rewrite list_lookup_alter_ne by congruence. reflexivity.
Qed.

Lemma set_qtable_same (pe : pid_entry) : set_qtable (qtable pe) pe = pe.
Proof. destruct pe; reflexivity. Qed.

(** The cell written by [q_update] when nothing overflows. *)
Lemma q_update_cell_exact
      (cfg : params) (pe : pid_entry) (s : rl_state) (a : Z)
      (reward : Z) (s_next : rl_state) :
  wf_qtable (qtable pe) ->
  0 <= a < NUM_ACTIONS ->
  update_fits (alpha_permille cfg) (gamma_permille cfg)
              (qtable_get (qtable pe) s a) reward (best_next_of pe s_next) ->
  qtable_get (qtable (q_update cfg pe s a reward s_next)) s a
  = spec_update_value (alpha_permille cfg) (gamma_permille cfg)
                      (qtable_get (qtable pe) s a) reward
                      (best_next_of pe s_next).
Proof.
  intros Hwf Ha (F1 & F2 & F3 & F4 & F5).
  unfold q_update. simpl qtable.
  rewrite qtable_get_set_eq by assumption.
  unfold spec_update_value in *.
  rewrite (to_long_id _ F1), (to_long_id _ F2), (to_long_id _ F3),
          (to_long_id _ F4).
  apply to_long_id. exact F5.
Qed.

(** A truncating division by 1000 of [alpha * d], with [alpha] a fraction
    of 1000, lands between 0 and [d]. *)
Lemma permille_quot_between (alpha d : Z) :
  0 <= alpha <= 1000 ->
  (0 <= d -> 0 <= Z.quot (alpha * d) 1000 <= d) /\
  (d <= 0 -> d <= Z.quot (alpha * d) 1000 <= 0).
Proof.
  intros Halpha. split; intros Hd.
  - rewrite Z.quot_div_nonneg by nia. split.
    + apply Z.div_pos; nia.
    + apply Z.div_le_upper_bound; nia.
  - replace (alpha * d) with (- (alpha * - d)) by lia.
    rewrite Z.quot_opp_l by lia.
    rewrite Z.quot_div_nonneg by nia.
    assert (0 <= alpha * - d / 1000) by (apply Z.div_pos; nia).
    assert (alpha * - d / 1000 <= - d) by (apply Z.div_le_upper_bound; nia).
    lia.
Qed.


(** X7.  On an entry whose table is all zero, [q_update] with reward 0
    changes nothing, whatever the learning rate and the discount are. *)
Theorem q_update_zero_table_zero_reward
        (cfg : params) (pe : pid_entry) (s : rl_state) (a : Z)
        (s_next : rl_state) :
  qtable pe = zero_qtable ->
  0 <= a < NUM_ACTIONS ->
  q_update cfg pe s a 0 s_next = pe.
Proof.
  intros Hq Ha.
  assert (Hget : qtable_get (qtable pe) s a = 0).
  { rewrite Hq. unfold NUM_ACTIONS in Ha.
    assert (a = 0 \/ a = 1 \/ a = 2) as [-> | [-> | ->]] by lia;
      destruct s; reflexivity. }
  assert (Hbest : best_next_of pe s_next = 0).
  { unfold best_next_of, best_next_scan. rewrite Hq.
    destruct s_next; reflexivity. }
  unfold q_update. rewrite Hbest, Hget, Z.mul_0_r.
  change (to_long 0) with 0. change (Z.quot 0 1000) with 0.
  change (to_long (to_long (0 + 0) - 0)) with 0.
  rewrite Z.mul_0_r. change (to_long 0) with 0.
  change (to_long (0 + Z.quot 0 1000)) with 0.
  rewrite <- Hget at 1.
  rewrite qtable_set_get_id;
    [apply set_qtable_same | rewrite Hq; apply wf_zero_qtable | exact Ha].
Qed.

Lemma q_update_zero_table_zero_reward_witness :
  q_update default_params (new_pid_entry 7) RL_STATE_MED 1 0 RL_STATE_HIGH
  = new_pid_entry 7.
Proof.
  apply q_update_zero_table_zero_reward.
  - reflexivity.
  - unfold NUM_ACTIONS. lia.
Defined.

(** X8.  With [alpha_permille = 0] learning is off: [q_update] leaves the
    entry exactly as it was, for every reward, discount and next state,
    overflowing intermediate results included. *)
Theorem q_update_zero_rate_is_identity
        (cfg : params) (pe : pid_entry) (s : rl_state) (a : Z)
        (reward : Z) (s_next : rl_state) :
  alpha_permille cfg = 0 ->
  wf_qtable (qtable pe) ->
  0 <= a < NUM_ACTIONS ->
  q_update cfg pe s a reward s_next = pe.
Proof.
  intros Halpha Hwf Ha. unfold q_update.
  rewrite Halpha, Z.mul_0_l.
  change (to_long 0) with 0. change (Z.quot 0 1000) with 0.
  rewrite Z.add_0_r.
  rewrite (to_long_id _ (qtable_get_in_long (qtable pe) s a Hwf)).
  rewrite qtable_set_get_id by assumption. apply set_qtable_same.
Qed.

Lemma q_update_zero_rate_is_identity_witness :
  q_update (mk_params 0 900 200 1000 5)
           (mk_pid_entry 7 1 [[0; 0; 0]; [0; 123; 0]; [5; 40; 0]]
                         RL_STATE_LOW RL_DEC_NICE)
           RL_STATE_MED 1 (-51) RL_STATE_HIGH
  = mk_pid_entry 7 1 [[0; 0; 0]; [0; 123; 0]; [5; 40; 0]]
                 RL_STATE_LOW RL_DEC_NICE.
Proof.
  apply q_update_zero_rate_is_identity.
  - reflexivity.
  - split; [reflexivity |]. repeat constructor; unfold_ints; lia.
  - unfold NUM_ACTIONS. lia.
Defined.

(** X9.  With a learning rate between 0 and 1000 and no overflow, the
    update never overshoots: the new value of the cell lies between its old
    value and the target [reward + (gamma * best_next) / 1000], ends of the
    interval included. *)
Theorem q_update_between_old_and_target
        (cfg : params) (pe : pid_entry) (s : rl_state) (a : Z)
        (reward : Z) (s_next : rl_state) :
  wf_qtable (qtable pe) ->
  0 <= a < NUM_ACTIONS ->
  0 <= alpha_permille cfg <= 1000 ->
  update_fits (alpha_permille cfg) (gamma_permille cfg)
              (qtable_get (qtable pe) s a) reward (best_next_of pe s_next) ->
  Z.min (qtable_get (qtable pe) s a)
        (reward + Z.quot (gamma_permille cfg * best_next_of pe s_next) 1000)
  <= qtable_get (qtable (q_update cfg pe s a reward s_next)) s a
  <= Z.max (qtable_get (qtable pe) s a)
           (reward + Z.quot (gamma_permille cfg * best_next_of pe s_next) 1000).
Proof.
  intros Hwf Ha Halpha Hfits.
  rewrite (q_update_cell_exact cfg pe s a reward s_next Hwf Ha Hfits).
  unfold spec_update_value.
  destruct (permille_quot_between
              (alpha_permille cfg)
              (reward + Z.quot (gamma_permille cfg * best_next_of pe s_next) 1000
               - qtable_get (qtable pe) s a) Halpha) as [Hpos Hneg].
  destruct (Z.le_ge_cases
              0 (reward
                 + Z.quot (gamma_permille cfg * best_next_of pe s_next) 1000
                 - qtable_get (qtable pe) s a)) as [Hd | Hd].
  - specialize (Hpos Hd). lia.
  - specialize (Hneg Hd). lia.
Qed.

Lemma q_update_between_old_and_target_witness :
  Z.min (qtable_get [[0; 0; 0]; [0; 0; 0]; [-10; 40; 0]] RL_STATE_LOW 0)
        (-51 + Z.quot (900 * best_next_of
                               (mk_pid_entry
                                  7 1 [[0; 0; 0]; [0; 0; 0]; [-10; 40; 0]]
                                  RL_STATE_LOW RL_DEC_NICE) RL_STATE_HIGH)
                      1000)
  <= qtable_get
       (qtable (q_update default_params
                         (mk_pid_entry 7 1
                                       [[0; 0; 0]; [0; 0; 0]; [-10; 40; 0]]
                                       RL_STATE_LOW RL_DEC_NICE)
                         RL_STATE_LOW 0 (-51) RL_STATE_HIGH))
       RL_STATE_LOW 0
  <= Z.max (qtable_get [[0; 0; 0]; [0; 0; 0]; [-10; 40; 0]] RL_STATE_LOW 0)
           (-51 + Z.quot (900 * best_next_of
                                  (mk_pid_entry
                                     7 1 [[0; 0; 0]; [0; 0; 0]; [-10; 40; 0]]
                                     RL_STATE_LOW RL_DEC_NICE) RL_STATE_HIGH)
                         1000).
Proof.
  apply (q_update_between_old_and_target
           default_params
           (mk_pid_entry 7 1 [[0; 0; 0]; [0; 0; 0]; [-10; 40; 0]]
                         RL_STATE_LOW RL_DEC_NICE)
           RL_STATE_LOW 0 (-51) RL_STATE_HIGH).
  - split; [reflexivity |]. repeat constructor; unfold_ints; lia.
  - unfold NUM_ACTIONS. lia.
  - simpl. lia.
  - vm_compute. intuition discriminate.
Defined.





(* ===================================================================== *)
(** ** More on the sampling loop *)
(* ===================================================================== *)

Lemma set_nice_same (p : task_struct) : set_nice (nice p) p = p.
Proof. destruct p; reflexivity. Qed.

Lemma apply_action_to_task_eq (cfg : params) (task : task_struct)
      (action : Z) (k : kstate) :
  apply_action_to_task cfg task action k
  = (set_nice (action_new_nice cfg (nice task) action) task,
     log_append (renice_events cfg task action) k).
Proof.
  unfold apply_action_to_task, renice_events, log_append, kbind, emit, kret.
  destruct (Z.eqb_spec (action_new_nice cfg (nice task) action) (nice task))
    as [Heq | Hne]; simpl.
  - rewrite Heq, set_nice_same, app_nil_r. destruct k; reflexivity.
  - rewrite <- app_assoc. reflexivity.
Qed.

(** A zombie or dead task is passed over. *)
Lemma rl_worker_body_dead (cfg : params) (p : task_struct) (k : kstate) :
  ~ task_live p -> rl_worker_body cfg p k = (p, k).
Proof.
  intros Hdead. unfold rl_worker_body.
  destruct (Z.eqb_spec (exit_state p) EXIT_ZOMBIE) as [Hz | Hz];
    [reflexivity |].
  destruct (Z.eqb_spec (exit_state p) EXIT_DEAD) as [Hd | Hd];
    [reflexivity |].
  exfalso. apply Hdead. split; assumption.
Qed.

Lemma task_live_dec (p : task_struct) : task_live p \/ ~ task_live p.
Proof.
  unfold task_live.
  destruct (Z.eq_dec (exit_state p) EXIT_ZOMBIE);
    destruct (Z.eq_dec (exit_state p) EXIT_DEAD); tauto.
Qed.

(** A live task whose pid is new and gets memory: the entry is linked at the
    head and takes the first-observation branch at once. *)
Lemma rl_worker_body_new (cfg : params) (p : task_struct) (k : kstate) :
  task_live p ->
  pid_absent (task_pid p) (pid_table k) ->
  kzalloc_ok k (kzalloc_next k) = true ->
  rl_worker_body cfg p k
  = (p, set_pid_table
          (set_prev_runtime (to_u64 (sum_exec_runtime p))
                            (new_pid_entry (task_pid p)) :: pid_table k)
          (after_kzalloc k)).
Proof.
  intros Hlive Habs Hok. unfold rl_worker_body.
  rewrite (task_live_check p Hlive). unfold kbind at 1.
  rewrite (get_pid_entry_absent (task_pid p) k Habs), Hok. reflexivity.
Qed.

(** A live task whose entry has been sampled before: the whole effect of
    the body. *)
Lemma rl_worker_body_processed
      (cfg : params) (p : task_struct) (k : kstate) (i : nat) (pe : pid_entry) :
  task_live p ->
  list_find (fun e0 : pid_entry => pid e0 = task_pid p) (pid_table k)
  = Some (i, pe) ->
  prev_runtime pe <> 0 ->
  rl_worker_body cfg p k
  = (set_nice
       (action_new_nice
          cfg (nice p)
          (fst (choose_action
                  cfg pe
                  (cpu_delta_to_state
                     (runtime_delta (to_u64 (sum_exec_runtime p))
                                    (prev_runtime pe))) k))) p,
     set_pid_table
       (<[i := learned_entry
                 cfg pe (to_u64 (sum_exec_runtime p))
                 (fst (choose_action
                         cfg pe
                         (cpu_delta_to_state
                            (runtime_delta (to_u64 (sum_exec_runtime p))
                                           (prev_runtime pe))) k))]>
          (pid_table k))
       (log_append
          (renice_events
             cfg p
             (fst (choose_action
                     cfg pe
                     (cpu_delta_to_state
                        (runtime_delta (to_u64 (sum_exec_runtime p))
                                       (prev_runtime pe))) k))
           ++ (if prev_action_valid pe
               then [EvQUpdate
                       (pid pe) (prev_state pe) (prev_action pe)
                       (delta_reward
                          (runtime_delta (to_u64 (sum_exec_runtime p))
                                         (prev_runtime pe)))
                       (cpu_delta_to_state
                          (runtime_delta (to_u64 (sum_exec_runtime p))
                                         (prev_runtime pe)))]
               else []))
          (snd (choose_action
                  cfg pe
                  (cpu_delta_to_state
                     (runtime_delta (to_u64 (sum_exec_runtime p))
                                    (prev_runtime pe))) k)))).
Proof.
  intros Hlive Hfind Hnz. unfold rl_worker_body.
  rewrite (task_live_check p Hlive). unfold kbind at 1.
  rewrite (get_pid_entry_found (task_pid p) k i pe Hfind).
  destruct (Z.eqb_spec (prev_runtime pe) 0) as [Hz | _]; [contradiction |].
  unfold kbind at 1.
  pose proof (choose_action_keeps
                cfg pe
                (cpu_delta_to_state
                   (runtime_delta (to_u64 (sum_exec_runtime p))
                                  (prev_runtime pe))) k) as (Hct & _ & _).
  destruct (choose_action _ _ _ k) as [action k2]. cbn [fst snd] in *.
  unfold kbind at 1. rewrite apply_action_to_task_eq.
  unfold learned_entry. fold (prev_action_valid pe).
  unfold kbind at 1.
  destruct (prev_action_valid pe);
    unfold kbind, emit, kret, store_entry, get_table, put_table,
           set_pid_table, log_append;
    simpl; rewrite Hct; rewrite <- ?app_assoc, ?app_nil_r; reflexivity.
Qed.

(** Lifting a property of entries over the body of the loop. *)
Lemma rl_worker_body_Forall
      (P : pid_entry -> Prop) (cfg : params) (p : task_struct) (k : kstate) :
  (forall (p0 c : Z), P (set_prev_runtime (to_u64 c) (new_pid_entry p0))) ->
  (forall (e : pid_entry) (c : Z),
      P e -> P (set_prev_runtime (to_u64 c) e)) ->
  (forall (pe : pid_entry) (c action : Z),
      P pe -> 0 <= action < NUM_ACTIONS ->
      P (learned_entry cfg pe (to_u64 c) action)) ->
  Forall P (pid_table k) ->
  Forall P (pid_table (snd (rl_worker_body cfg p k))).
Proof.
  intros Hnew Hfirst Hlearn Hall.
  destruct (task_live_dec p) as [Hlive | Hdead].
  2: { rewrite (rl_worker_body_dead cfg p k Hdead). exact Hall. }
  destruct (list_find (fun e0 : pid_entry => pid e0 = task_pid p) (pid_table k))
    as [[i pe] |] eqn:Hfind.
  - assert (Hpe : P pe).
    { apply list_find_Some in Hfind as (Hi & _).
      exact (Forall_lookup_1 _ _ _ _ Hall Hi). }
    destruct (Z.eq_dec (prev_runtime pe) 0) as [Hz | Hnz].
    + rewrite (rl_worker_body_first_observation cfg p k i pe Hlive Hfind Hz).
      simpl. apply Forall_insert; [exact Hall | apply Hfirst; exact Hpe].
    + rewrite (rl_worker_body_processed cfg p k i pe Hlive Hfind Hnz).
      simpl. apply Forall_insert; [exact Hall |].
      apply Hlearn; [exact Hpe | apply choose_action_in_range].
  - apply list_find_None in Hfind.
    destruct (kzalloc_ok k (kzalloc_next k)) eqn:Hok.
    + rewrite (rl_worker_body_new cfg p k Hlive Hfind Hok). simpl.
      apply Forall_cons. split; [apply Hnew | exact Hall].
    + rewrite (rl_worker_body_nomem cfg p k Hlive Hfind Hok). exact Hall.
Qed.

Lemma rl_worker_Forall
      (P : pid_entry -> Prop) (cfg : params)
      (sleeps : list (list task_struct -> list task_struct))
      (ps : list task_struct) (k : kstate) :
  (forall (p0 c : Z), P (set_prev_runtime (to_u64 c) (new_pid_entry p0))) ->
  (forall (e : pid_entry) (c : Z),
      P e -> P (set_prev_runtime (to_u64 c) e)) ->
  (forall (pe : pid_entry) (c action : Z),
      P pe -> 0 <= action < NUM_ACTIONS ->
      P (learned_entry cfg pe (to_u64 c) action)) ->
  Forall P (pid_table k) ->
  Forall P (pid_table (snd (rl_worker cfg sleeps ps k))).
Proof.
  intros Hnew Hfirst Hlearn.
  assert (Htick : forall (qs : list task_struct) (k0 : kstate),
             Forall P (pid_table k0) ->
             Forall P (pid_table (snd (for_each_process cfg qs k0)))).
  { induction qs as [| q qs IH]; intros k0 Hall.
    - exact Hall.
    - rewrite for_each_process_cons. cbn [snd]. apply IH.
      apply rl_worker_body_Forall; assumption. }
  revert ps k. induction sleeps as [| host sleeps IH]; intros ps k Hall; simpl.
  - exact Hall.
  - unfold kbind. specialize (Htick ps k Hall).
    destruct (for_each_process cfg ps k) as [ps' k1]. apply IH. exact Htick.
Qed.

Lemma prev_action_valid_range (pe : pid_entry) :
  prev_action_valid pe = true <-> 0 <= prev_action pe < NUM_ACTIONS.
Proof.
  unfold prev_action_valid. rewrite andb_true_iff.
  destruct (Z.geb_spec (prev_action pe) 0);
    destruct (Z.ltb_spec (prev_action pe) NUM_ACTIONS);
    split; intros Hv; try lia; try (destruct Hv; discriminate); split;
    reflexivity.
Qed.

Lemma learned_entry_wf (cfg : params) (pe : pid_entry) (c action : Z) :
  wf_qtable (qtable pe) -> wf_qtable (qtable (learned_entry cfg pe c action)).
Proof.
  intros Hwf. unfold learned_entry. simpl.
  destruct (prev_action_valid pe); [apply wf_q_update |]; exact Hwf.
Qed.

(** X11.  The worker keeps every entry of the table well formed: its
    Q-table is a 3 x 3 table of [long], its [prev_action] is one of the three
    actions and its [prev_runtime] an [unsigned long long].  So the test
    that guards [q_update] in the loop holds for every entry the worker ever
    meets. *)
Theorem rl_worker_keeps_entries_ok
        (cfg : params)
        (sleeps : list (list task_struct -> list task_struct))
        (ps : list task_struct) (k : kstate) :
  Forall entry_ok (pid_table k) ->
  Forall (fun e : pid_entry => entry_ok e /\ prev_action_valid e = true)
         (pid_table (snd (rl_worker cfg sleeps ps k))).
Proof.
  intros Hall.
  assert (Hok : Forall entry_ok (pid_table (snd (rl_worker cfg sleeps ps k)))).
  { apply rl_worker_Forall; [| | | exact Hall].
    - intros p0 c. split; [apply wf_zero_qtable |].
      split; [simpl; unfold RL_NOOP, NUM_ACTIONS; lia | apply to_u64_range].
    - intros e c (Hwf & Ha & _).
      split; [exact Hwf | split; [exact Ha | apply to_u64_range]].
    - intros pe c action (Hwf & _ & _) Haction.
      split; [apply learned_entry_wf; exact Hwf |].
      split; [exact Haction | apply to_u64_range]. }
  eapply Forall_impl; [exact Hok |].
  intros e He. split; [exact He |].
  apply prev_action_valid_range. apply He.
Qed.

Lemma rl_worker_keeps_entries_ok_witness :
  Forall (fun e : pid_entry => entry_ok e /\ prev_action_valid e = true)
         (pid_table
            (snd (rl_worker default_params
                            [host_runs_to 5000001; host_idle]
                            [mk_task 7 0 1 0]
                            (boot (fun _ => 999) (fun _ => true))))).
Proof.
  apply rl_worker_keeps_entries_ok. constructor.
Defined.

Lemma delta_reward_range (delta : Z) :
  in_u64 delta -> - REWARD_MAX <= delta_reward delta <= 0.
Proof.
  intros Hd. rewrite (delta_reward_quot delta Hd).
  rewrite Z.quot_div_nonneg by (unfold_ints; lia).
  unfold REWARD_MAX. unfold_ints.
  assert (0 <= delta / 1000000) by (apply Z.div_pos; lia).
  assert (delta / 1000000 < 18446744073710)
    by (apply Z.div_lt_upper_bound; lia).
  lia.
Qed.




(** X13.  Delta, reward and state of one sample, for [unsigned long long]
    runtimes.  The delta is [max (0, curr - prev)]: a runtime that went
    backwards (pid reuse) counts as 0.  The reward lies in
    [[-REWARD_MAX, 0]] and fixes the state: LOW exactly when the reward is 0,
    MED exactly when it is between -49 and -1, HIGH exactly when it is -50
    or less. *)
Theorem sample_delta_reward_state (curr prev : Z) :
  in_u64 curr ->
  in_u64 prev ->
  runtime_delta curr prev = Z.max 0 (curr - prev) /\
  - REWARD_MAX <= delta_reward (runtime_delta curr prev) <= 0 /\
  (cpu_delta_to_state (runtime_delta curr prev) = RL_STATE_LOW <->
   delta_reward (runtime_delta curr prev) = 0) /\
  (cpu_delta_to_state (runtime_delta curr prev) = RL_STATE_MED <->
   -49 <= delta_reward (runtime_delta curr prev) <= -1) /\
  (cpu_delta_to_state (runtime_delta curr prev) = RL_STATE_HIGH <->
   delta_reward (runtime_delta curr prev) <= -50) /\
  (curr <= prev ->
   runtime_delta curr prev = 0 /\
   cpu_delta_to_state (runtime_delta curr prev) = RL_STATE_LOW /\
   delta_reward (runtime_delta curr prev) = 0).
Proof.
  intros Hc Hp.
  pose proof (runtime_delta_max curr prev Hc Hp) as Hmax.
  pose proof (runtime_delta_range curr prev) as Hrange.
  pose proof (delta_reward_range _ Hrange) as Hrew.
  pose proof (delta_reward_quot _ Hrange) as Hquot.
  remember (runtime_delta curr prev) as d eqn:Hd.
  rewrite Z.quot_div_nonneg in Hquot by (unfold_ints; lia).
  pose proof (Z.div_mod d 1000000 ltac:(lia)) as Hdm.
  pose proof (Z.mod_pos_bound d 1000000 ltac:(lia)) as Hmod.
  assert (Hcls : (cpu_delta_to_state d = RL_STATE_LOW <-> d < 1000000) /\
                 (cpu_delta_to_state d = RL_STATE_MED <->
                  1000000 <= d < 50000000) /\
                 (cpu_delta_to_state d = RL_STATE_HIGH <-> 50000000 <= d)).
  { unfold cpu_delta_to_state.
    destruct (Z.ltb_spec d 1000000), (Z.ltb_spec d 50000000);
      repeat split; intros; try lia; try discriminate; reflexivity. }
  destruct Hcls as (HL & HM & HH).
  split; [exact Hmax |]. split; [exact Hrew |].
  rewrite HL, HM, HH, Hquot.
  repeat split; intros; lia.
Qed.

Lemma sample_delta_reward_state_witness :
  runtime_delta 5 9 = Z.max 0 (5 - 9).
Proof.
  apply (sample_delta_reward_state 5 9); unfold_ints; lia.
Defined.

(** X14.  A tick over a process list that holds only zombie or dead tasks
    (the empty list included) changes nothing: no entry is created, no
    memory is asked for, nothing is drawn, logged or reniced. *)
Theorem tick_skips_exited_tasks
        (cfg : params) (ps : list task_struct) (k : kstate) :
  Forall (fun p : task_struct => ~ task_live p) ps ->
  for_each_process cfg ps k = (ps, k).
Proof.
  induction ps as [| p ps IH]; intros Hdead.
  - reflexivity.
  - apply Forall_cons in Hdead as [Hp Hps].
    rewrite for_each_process_cons, (rl_worker_body_dead cfg p k Hp).
    cbn [fst snd]. rewrite (IH Hps). reflexivity.
Qed.

Lemma tick_skips_exited_tasks_witness :
  for_each_process default_params
                   [mk_task 7 EXIT_ZOMBIE 5 0; mk_task 8 EXIT_DEAD 9 0]
                   (boot (fun _ => 0) (fun _ => true))
  = ([mk_task 7 EXIT_ZOMBIE 5 0; mk_task 8 EXIT_DEAD 9 0],
     boot (fun _ => 0) (fun _ => true)).
Proof.
  apply tick_skips_exited_tasks.
  repeat constructor; intros [Hz Hd]; simpl in *; congruence.
Defined.

Lemma list_find_insert_match (p : Z) (t : list pid_entry) (i : nat)
      (e e' : pid_entry) :
  list_find (fun e0 : pid_entry => pid e0 = p) t = Some (i, e) ->
  pid e' = p ->
  list_find (fun e0 : pid_entry => pid e0 = p) (<[i := e']> t) = Some (i, e').
Proof.
  intros Hfind He'. apply list_find_Some in Hfind as (Hi & _ & Hleast).
  apply list_find_Some. split; [| split].
  - apply list_lookup_insert_eq. eapply lookup_lt_Some. exact Hi.
  - exact He'.
  - intros j y Hj Hlt. rewrite list_lookup_insert_ne in Hj by lia.
    exact (Hleast j y Hj Hlt).
Qed.

(** X15.  The first sample of a live process only records its runtime.  If
    the pid has an entry with [prev_runtime = 0], or has none and memory is
    granted, the body leaves the task, the log and the random numbers as they
    were, and the entry of the pid is the old (or the fresh default) entry
    with [prev_runtime] set to the runtime just read. *)
Theorem first_sample_only_records_runtime
        (cfg : params) (p : task_struct) (k : kstate) :
  task_live p ->
  (forall (i : nat) (e : pid_entry),
      list_find (fun e0 : pid_entry => pid e0 = task_pid p) (pid_table k)
      = Some (i, e) ->
      prev_runtime e = 0 ->
      fst (rl_worker_body cfg p k) = p /\
      klog (snd (rl_worker_body cfg p k)) = klog k /\
      random_next (snd (rl_worker_body cfg p k)) = random_next k /\
      list_find (fun e0 : pid_entry => pid e0 = task_pid p)
                (pid_table (snd (rl_worker_body cfg p k)))
      = Some (i, set_prev_runtime (to_u64 (sum_exec_runtime p)) e)) /\
  (pid_absent (task_pid p) (pid_table k) ->
   kzalloc_ok k (kzalloc_next k) = true ->
   fst (rl_worker_body cfg p k) = p /\
   klog (snd (rl_worker_body cfg p k)) = klog k /\
   random_next (snd (rl_worker_body cfg p k)) = random_next k /\
   pid_table (snd (rl_worker_body cfg p k))
   = mk_pid_entry (task_pid p) (to_u64 (sum_exec_runtime p))
                  zero_qtable RL_STATE_LOW RL_NOOP
     :: pid_table k).
Proof.
  intros Hlive. split.
  - intros i e Hfind Hzero.
    rewrite (rl_worker_body_first_observation cfg p k i e Hlive Hfind Hzero).
    simpl. repeat split.
    apply (list_find_insert_match (task_pid p) _ i e); [exact Hfind |].
    apply list_find_Some in Hfind as (_ & Hp & _). exact Hp.
  - intros Habs Hok.
    rewrite (rl_worker_body_new cfg p k Hlive Habs Hok).
    simpl. repeat split.
Qed.

Lemma first_sample_only_records_runtime_witness :
  pid_table (snd (rl_worker_body default_params (mk_task 7 0 42 0)
                                 (boot (fun _ => 0) (fun _ => true))))
  = mk_pid_entry (task_pid (mk_task 7 0 42 0))
                 (to_u64 (sum_exec_runtime (mk_task 7 0 42 0)))
                 zero_qtable RL_STATE_LOW RL_NOOP
    :: pid_table (boot (fun _ => 0) (fun _ => true)).
Proof.
  refine (proj2 (proj2 (proj2 (proj2 (first_sample_only_records_runtime
                                        default_params (mk_task 7 0 42 0)
                                        (boot (fun _ => 0) (fun _ => true))
                                        _) _ _)))).
  - split; discriminate.
  - constructor.
  - reflexivity.
Defined.

(** X16.  Bookkeeping of a processed sample.  For a live task whose entry
    has been sampled before, the body leaves the entry of the pid at the same
    place in the list, with [prev_runtime] the runtime just read,
    [prev_state] the state of the delta just measured and [prev_action] the
    action just chosen (one of the three); its Q-table differs from the old
    one at most in the cell of the old [prev_state] and [prev_action]; the
    table keeps its length and the entry of every other pid. *)
Theorem processed_sample_bookkeeping
        (cfg : params) (p : task_struct) (k : kstate) (i : nat)
        (pe : pid_entry) :
  task_live p ->
  list_find (fun e0 : pid_entry => pid e0 = task_pid p) (pid_table k)
  = Some (i, pe) ->
  prev_runtime pe <> 0 ->
  exists e' : pid_entry,
    list_find (fun e0 : pid_entry => pid e0 = task_pid p)
              (pid_table (snd (rl_worker_body cfg p k))) = Some (i, e') /\
    pid e' = pid pe /\
    prev_runtime e' = to_u64 (sum_exec_runtime p) /\
    prev_state e'
    = cpu_delta_to_state
        (runtime_delta (to_u64 (sum_exec_runtime p)) (prev_runtime pe)) /\
    prev_action e'
    = fst (choose_action
             cfg pe
             (cpu_delta_to_state
                (runtime_delta (to_u64 (sum_exec_runtime p))
                               (prev_runtime pe))) k) /\
    0 <= prev_action e' < NUM_ACTIONS /\
    (forall (s : rl_state) (a : Z),
        0 <= a < NUM_ACTIONS ->
        (s, a) <> (prev_state pe, prev_action pe) ->
        qtable_get (qtable e') s a = qtable_get (qtable pe) s a) /\
    length (pid_table (snd (rl_worker_body cfg p k))) = length (pid_table k) /\
    (forall p0 : Z,
        p0 <> task_pid p ->
        entry_of p0 (pid_table (snd (rl_worker_body cfg p k)))
        = entry_of p0 (pid_table k)).
Proof.
  intros Hlive Hfind Hnz.
  pose proof (rl_worker_body_processed cfg p k i pe Hlive Hfind Hnz) as Hbody.
  pose proof (proj1 (list_find_Some _ _ _ _) Hfind) as (Hi & Hp & _).
  eexists. split.
  { rewrite Hbody. simpl.
    apply (list_find_insert_match (task_pid p) _ i pe); [exact Hfind |].
    unfold learned_entry. simpl.
    destruct (prev_action_valid pe); exact Hp. }
  split.
  { unfold learned_entry. simpl. destruct (prev_action_valid pe); reflexivity. }
  split; [reflexivity |]. split; [reflexivity |]. split; [reflexivity |].
  split; [apply choose_action_in_range |].
  split.
  { intros s a Ha Hne. unfold learned_entry. simpl.
    destruct (prev_action_valid pe) eqn:Hvalid; [| reflexivity].
    apply prev_action_valid_range in Hvalid.
    unfold q_update. simpl.
    apply qtable_get_set_ne; [lia | lia | exact Hne]. }
  split.
  { rewrite Hbody. simpl. apply length_insert. }
  intros p0 Hp0. apply rl_worker_body_frame. congruence.
Qed.

Lemma processed_sample_bookkeeping_witness :
  exists e' : pid_entry,
    list_find (fun e0 : pid_entry => pid e0 = 7)
              (pid_table
                 (snd (rl_worker_body
                         default_params (mk_task 7 0 52000001 0)
                         (mk_kstate [mk_pid_entry 7 500001 zero_qtable
                                                  RL_STATE_LOW RL_DEC_NICE]
                                    (fun _ => 999) 0 (fun _ => true) 0 []))))
    = Some (0%nat, e') /\
    prev_runtime e' = 52000001 /\
    prev_state e' = RL_STATE_HIGH.
Proof.
  destruct (processed_sample_bookkeeping
              default_params (mk_task 7 0 52000001 0)
              (mk_kstate [mk_pid_entry 7 500001 zero_qtable
                                       RL_STATE_LOW RL_DEC_NICE]
                         (fun _ => 999) 0 (fun _ => true) 0 [])
              0%nat
              (mk_pid_entry 7 500001 zero_qtable RL_STATE_LOW RL_DEC_NICE))
    as (e' & Hfind & _ & Hrt & Hst & _).
  - split; discriminate.
  - reflexivity.
  - discriminate.
  - exists e'. split; [exact Hfind |]. split; [exact Hrt | exact Hst].
Defined.

Lemma for_each_process_pids (cfg : params) (ps : list task_struct)
      (k : kstate) :
  exists added : list Z,
    pid <$> pid_table (snd (for_each_process cfg ps k))
    = added ++ (pid <$> pid_table k) /\
    (length added <= length ps)%nat.
Proof.
  revert k. induction ps as [| p ps IH]; intros k.
  - exists []. split; [reflexivity | simpl; lia].
  - rewrite for_each_process_cons. cbn [snd].
    destruct (IH (snd (rl_worker_body cfg p k))) as (added & Heq & Hlen).
    rewrite Heq.
    destruct (rl_worker_body_pids cfg p k) as [-> | [_ ->]].
    + exists added. split; [reflexivity | simpl; lia].
    + exists (added ++ [task_pid p]). split.
      * rewrite <- app_assoc. reflexivity.
      * rewrite length_app. simpl. lia.
Qed.

(** X17.  The worker never unlinks an entry.  After any run the pids of
    the table are the pids it held before, in the same order, behind those
    linked in since; and one tick links at most one entry per task of the
    process list. *)
Theorem rl_worker_never_drops_entries
        (cfg : params)
        (sleeps : list (list task_struct -> list task_struct))
        (ps : list task_struct) (k : kstate) :
  (exists added : list Z,
      pid <$> pid_table (snd (rl_worker cfg sleeps ps k))
      = added ++ (pid <$> pid_table k)) /\
  (exists added : list Z,
      pid <$> pid_table (snd (for_each_process cfg ps k))
      = added ++ (pid <$> pid_table k) /\
      (length added <= length ps)%nat).
Proof.
  split; [| apply for_each_process_pids].
  revert ps k. induction sleeps as [| host sleeps IH]; intros ps k; simpl.
  - exists []. reflexivity.
  - unfold kbind.
    destruct (for_each_process_pids cfg ps k) as (added1 & Heq1 & _).
    destruct (for_each_process cfg ps k) as [ps' k1]. cbn [snd] in Heq1.
    destruct (IH (host ps') k1) as (added2 & Heq2).
    exists (added2 ++ added1). rewrite Heq2, Heq1, app_assoc. reflexivity.
Qed.

Lemma rl_worker_body_reniced (cfg : params) (p : task_struct) (k : kstate) :
  reniced p (fst (rl_worker_body cfg p k)).
Proof.
  assert (Hsame : reniced p p) by (repeat split; left; reflexivity).
  destruct (task_live_dec p) as [Hlive | Hdead].
  2: { rewrite (rl_worker_body_dead cfg p k Hdead). exact Hsame. }
  destruct (list_find (fun e0 : pid_entry => pid e0 = task_pid p) (pid_table k))
    as [[i pe] |] eqn:Hfind.
  - destruct (Z.eq_dec (prev_runtime pe) 0) as [Hz | Hnz].
    + rewrite (rl_worker_body_first_observation cfg p k i pe Hlive Hfind Hz).
      exact Hsame.
    + rewrite (rl_worker_body_processed cfg p k i pe Hlive Hfind Hnz).
      cbn [fst]. repeat split. right. simpl. apply action_new_nice_range.
  - apply list_find_None in Hfind.
    destruct (kzalloc_ok k (kzalloc_next k)) eqn:Hok.
    + rewrite (rl_worker_body_new cfg p k Hlive Hfind Hok). exact Hsame.
    + rewrite (rl_worker_body_nomem cfg p k Hlive Hfind Hok). exact Hsame.
Qed.

Lemma for_each_process_reniced (cfg : params) (ps : list task_struct)
      (k : kstate) :
  Forall2 reniced ps (fst (for_each_process cfg ps k)).
Proof.
  revert k. induction ps as [| p ps IH]; intros k.
  - constructor.
  - rewrite for_each_process_cons. cbn [fst]. constructor.
    + apply rl_worker_body_reniced.
    + apply IH.
Qed.

(** X18.  A tick hands the process list back with the same tasks in the
    same order: pid, exit state and runtime of each are untouched and the
    nice value is either the old one or a value in [[-20, 19]].  So a list of
    tasks with valid nice values stays one. *)
Theorem tick_only_renices
        (cfg : params) (ps : list task_struct) (k : kstate) :
  Forall2 reniced ps (fst (for_each_process cfg ps k)) /\
  (Forall (fun p : task_struct => -20 <= nice p <= 19) ps ->
   Forall (fun p : task_struct => -20 <= nice p <= 19)
          (fst (for_each_process cfg ps k))).
Proof.
  pose proof (for_each_process_reniced cfg ps k) as Hren.
  split; [exact Hren |].
  intros Hvalid. induction Hren as [| p p' ps ps' Hp Hps IH].
  - constructor.
  - apply Forall_cons in Hvalid as [Hv Hvs].
    apply Forall_cons. split; [| apply IH; exact Hvs].
    destruct Hp as (_ & _ & _ & [-> | Hr]); assumption.
Qed.

Lemma tick_only_renices_witness :
  Forall (fun p : task_struct => -20 <= nice p <= 19)
         (fst (for_each_process
                 default_params [mk_task 7 0 52000001 (-18)]
                 (mk_kstate [mk_pid_entry 7 500001 zero_qtable
                                          RL_STATE_LOW RL_DEC_NICE]
                            (fun _ => 999) 0 (fun _ => true) 0 []))).
Proof.
  apply tick_only_renices. repeat constructor; simpl; lia.
Defined.

Lemma for_each_process_frame (cfg : params) (ps : list task_struct)
      (k : kstate) (p0 : Z) :
  pid_gone p0 ps ->
  entry_of p0 (pid_table (snd (for_each_process cfg ps k)))
  = entry_of p0 (pid_table k) /\
  pid_gone p0 (fst (for_each_process cfg ps k)).
Proof.
  revert k. induction ps as [| p ps IH]; intros k Hgone.
  - split; [reflexivity | constructor].
  - apply Forall_cons in Hgone as [Hp Hps].
    rewrite for_each_process_cons. cbn [fst snd].
    destruct (IH (snd (rl_worker_body cfg p k)) Hps) as [He Hg].
    split.
    + rewrite He. apply rl_worker_body_frame. exact Hp.
    + apply Forall_cons. split; [| exact Hg].
      destruct (rl_worker_body_reniced cfg p k) as (-> & _). exact Hp.
Qed.

(** X19.  The entry of a process that has left the process list stays
    what it was, for ever: as long as the host shows no task with that pid,
    no run of the worker changes or unlinks the entry (nor creates one). *)
Theorem rl_worker_keeps_entry_of_gone_pid
        (cfg : params)
        (sleeps : list (list task_struct -> list task_struct))
        (ps : list task_struct) (k : kstate) (p0 : Z) :
  hosts_keep_gone p0 sleeps ->
  pid_gone p0 ps ->
  entry_of p0 (pid_table (snd (rl_worker cfg sleeps ps k)))
  = entry_of p0 (pid_table k).
Proof.
  revert ps k. induction sleeps as [| host sleeps IH];
    intros ps k Hhosts Hgone; simpl.
  - reflexivity.
  - apply Forall_cons in Hhosts as [Hhost Hhosts]. unfold kbind.
    destruct (for_each_process_frame cfg ps k p0 Hgone) as [He Hg].
    destruct (for_each_process cfg ps k) as [ps' k1]. cbn [fst snd] in *.
    rewrite (IH (host ps') k1 Hhosts (Hhost ps' Hg)). exact He.
Qed.

Lemma rl_worker_keeps_entry_of_gone_pid_witness :
  entry_of 9 (pid_table
                (snd (rl_worker
                        default_params
                        [host_runs_to 5000001; host_idle]
                        [mk_task 7 0 1 0]
                        (mk_kstate [mk_pid_entry 9 77 zero_qtable
                                                 RL_STATE_MED RL_INC_NICE]
                                   (fun _ => 999) 0 (fun _ => true) 0 []))))
  = entry_of 9 (pid_table
                  (mk_kstate [mk_pid_entry 9 77 zero_qtable
                                           RL_STATE_MED RL_INC_NICE]
                             (fun _ => 999) 0 (fun _ => true) 0 [])).
Proof.
  apply rl_worker_keeps_entry_of_gone_pid.
  - repeat constructor.
    + intros ps Hg. unfold host_runs_to, pid_gone in *.
      rewrite Forall_map. exact Hg.
    + intros ps Hg. exact Hg.
  - repeat constructor. discriminate.
Defined.

(* ===================================================================== *)
(** ** More on the actuator *)
(* ===================================================================== *)

(** X20.  For a valid nice value and a step that cannot overflow an [int],
    DECREASE yields [max (-20, min (19, cur - step))] and INCREASE
    [max (-20, min (19, cur + step))].  With a non-negative step DECREASE
    never raises the nice value and INCREASE never lowers it, and with a
    positive step the value stays put (no write) exactly at the bound: -20
    for DECREASE, 19 for INCREASE. *)
Theorem action_new_nice_saturates (cfg : params) (cur : Z) :
  -20 <= cur <= 19 ->
  - 2 ^ 31 + 20 <= action_step cfg <= 2 ^ 31 - 21 ->
  action_new_nice cfg cur RL_DEC_NICE
  = Z.max (-20) (Z.min 19 (cur - action_step cfg)) /\
  action_new_nice cfg cur RL_INC_NICE
  = Z.max (-20) (Z.min 19 (cur + action_step cfg)) /\
  (0 <= action_step cfg ->
   action_new_nice cfg cur RL_DEC_NICE <= cur
   <= action_new_nice cfg cur RL_INC_NICE) /\
  (0 < action_step cfg ->
   (action_new_nice cfg cur RL_DEC_NICE = cur <-> cur = -20) /\
   (action_new_nice cfg cur RL_INC_NICE = cur <-> cur = 19)).
Proof.
  intros Hcur Hstep. change (2 ^ 31) with 2147483648 in Hstep.
  assert (Hdec : action_new_nice cfg cur RL_DEC_NICE
                 = Z.max (-20) (Z.min 19 (cur - action_step cfg))).
  { unfold action_new_nice. simpl.
    rewrite to_int_id by (change (2 ^ 31) with 2147483648; lia).
    unfold clamp_nice.
    destruct (Z.ltb_spec (cur - action_step cfg) (-20)); [lia |].
    destruct (Z.gtb_spec (cur - action_step cfg) 19); lia. }
  assert (Hinc : action_new_nice cfg cur RL_INC_NICE
                 = Z.max (-20) (Z.min 19 (cur + action_step cfg))).
  { unfold action_new_nice. simpl.
    rewrite to_int_id by (change (2 ^ 31) with 2147483648; lia).
    unfold clamp_nice.
    destruct (Z.ltb_spec (cur + action_step cfg) (-20)); [lia |].
    destruct (Z.gtb_spec (cur + action_step cfg) 19); lia. }
  rewrite Hdec, Hinc. repeat split; intros; lia.
Qed.

Lemma action_new_nice_saturates_witness :
  action_new_nice default_params (-18) RL_DEC_NICE
  = Z.max (-20) (Z.min 19 (-18 - action_step default_params)).
Proof.
  apply (action_new_nice_saturates default_params (-18)).
  - lia.
  - change (2 ^ 31) with 2147483648. simpl. lia.
Defined.

(* ===================================================================== *)
(** ** Module load and unload *)
(* ===================================================================== *)

(** X21.  [rl_init] returns 0 whatever [kthread_run] returns.  When the
    thread could not be created it stores NULL in [rl_thread] before taking
    [PTR_ERR] of it, so the error number is lost and the load is reported
    as a success; [rl_exit] then calls no [kthread_stop].  In every case
    [rl_exit] leaves the table empty. *)
Theorem rl_init_always_reports_success (kthread_run_result : Z) (k : kstate) :
  fst (rl_init kthread_run_result) = 0 /\
  (IS_ERR kthread_run_result = true ->
   snd (rl_init kthread_run_result) = 0 /\
   fst (rl_exit (snd (rl_init kthread_run_result)) k) = false) /\
  (IS_ERR kthread_run_result = false ->
   snd (rl_init kthread_run_result) = kthread_run_result) /\
  pid_table (snd (rl_exit (snd (rl_init kthread_run_result)) k)) = [].
Proof.
  unfold rl_init.
  destruct (IS_ERR kthread_run_result); simpl; repeat split;
    intros; try discriminate; reflexivity.
Qed.

Lemma rl_init_always_reports_success_witness :
  snd (rl_init (-12)) = 0 /\
  fst (rl_exit (snd (rl_init (-12))) (boot (fun _ => 0) (fun _ => true)))
  = false.
Proof.
  apply (rl_init_always_reports_success
           (-12) (boot (fun _ => 0) (fun _ => true))).
  reflexivity.
Defined.

(* ===================================================================== *)
(** ** latency_probe *)
(* ===================================================================== *)

(** X22.  The sleep request of latency_probe.  For every [int] number of
    microseconds the two fields add up to the request:
    [tv_sec * 10^9 + tv_nsec = sleep_us * 1000].  For a non-negative request
    the pair is a valid [timespec], [0 <= tv_nsec < 10^9]; for a negative one
    neither field is positive. *)
Theorem sleep_request_splits (sleep_us : Z) :
  - 2 ^ 31 <= sleep_us < 2 ^ 31 ->
  fst (sleep_request sleep_us) * 10 ^ 9 + snd (sleep_request sleep_us)
  = sleep_us * 1000 /\
  (0 <= sleep_us ->
   0 <= fst (sleep_request sleep_us) /\
   0 <= snd (sleep_request sleep_us) < 10 ^ 9) /\
  (sleep_us < 0 ->
   fst (sleep_request sleep_us) <= 0 /\
   - 10 ^ 9 < snd (sleep_request sleep_us) <= 0).
Proof.
  intros Hrange. change (2 ^ 31) with 2147483648 in Hrange.
  change (10 ^ 9) with 1000000000.
  pose proof (Z.quot_rem' sleep_us 1000000) as Hqr.
  assert (Hq : - 2148 <= Z.quot sleep_us 1000000 <= 2148 /\
               - 1000000 < Z.rem sleep_us 1000000 < 1000000 /\
               (0 <= sleep_us ->
                0 <= Z.quot sleep_us 1000000 /\ 0 <= Z.rem sleep_us 1000000) /\
               (sleep_us < 0 ->
                Z.quot sleep_us 1000000 <= 0 /\ Z.rem sleep_us 1000000 <= 0)).
  { destruct (Z.le_gt_cases 0 sleep_us) as [Hpos | Hneg].
    - pose proof (Z.rem_bound_pos sleep_us 1000000 Hpos ltac:(lia)).
      pose proof (Z.quot_pos sleep_us 1000000 Hpos ltac:(lia)).
      repeat split; intros; lia.
    - pose proof (Z.rem_bound_pos (- sleep_us) 1000000 ltac:(lia) ltac:(lia))
        as Hrem.
      pose proof (Z.quot_pos (- sleep_us) 1000000 ltac:(lia) ltac:(lia))
        as Hquot.
      rewrite Z.rem_opp_l in Hrem by lia.
      rewrite Z.quot_opp_l in Hquot by lia.
      repeat split; intros; lia. }
  destruct Hq as (Hqb & Hrb & Hpos & Hneg).
  unfold sleep_request. cbn [fst snd].
  rewrite (to_int_id (Z.quot sleep_us 1000000))
    by (change (2 ^ 31) with 2147483648; lia).
  rewrite (to_int_id (Z.rem sleep_us 1000000 * 1000))
    by (change (2 ^ 31) with 2147483648; lia).
  rewrite !to_long_id by (unfold_ints; lia).
  repeat split; intros; lia.
Qed.

Lemma sleep_request_splits_witness :
  fst (sleep_request 2500000) * 10 ^ 9 + snd (sleep_request 2500000)
  = 2500000 * 1000.
Proof.
  apply (sleep_request_splits 2500000).
  change (2 ^ 31) with 2147483648. lia.
Defined.

(* ===================================================================== *)
(** ** What the worker logs *)
(* ===================================================================== *)

Lemma renice_events_safe (cfg : params) (task : task_struct) (action : Z) :
  Forall event_safe (renice_events cfg task action) /\
  (length (nice_writes (renice_events cfg task action)) <= 1)%nat.
Proof.
  unfold renice_events.
  destruct (Z.eqb_spec (action_new_nice cfg (nice task) action) (nice task))
    as [Heq | Hne]; simpl.
  - split; [constructor | lia].
  - pose proof (action_new_nice_range cfg (nice task) action) as Hr.
    split; [| lia].
    repeat constructor; try apply Hr. exact Hne.
Qed.

Lemma nice_writes_app (l1 l2 : list kevent) :
  nice_writes (l1 ++ l2) = nice_writes l1 ++ nice_writes l2.
Proof. unfold nice_writes. apply omap_app. Qed.

Lemma rl_worker_body_events (cfg : params) (p : task_struct) (k : kstate) :
  exists evs : list kevent,
    klog (snd (rl_worker_body cfg p k)) = klog k ++ evs /\
    Forall event_safe evs /\
    (length (nice_writes evs) <= 1)%nat.
Proof.
  assert (Hnone : forall k' : kstate,
             klog k' = klog k ->
             exists evs : list kevent,
               klog k' = klog k ++ evs /\ Forall event_safe evs /\
               (length (nice_writes evs) <= 1)%nat).
  { intros k' Hk'. exists []. rewrite app_nil_r.
    split; [exact Hk' | split; [constructor | simpl; lia]]. }
  destruct (task_live_dec p) as [Hlive | Hdead].
  2: { rewrite (rl_worker_body_dead cfg p k Hdead). apply Hnone. reflexivity. }
  destruct (list_find (fun e0 : pid_entry => pid e0 = task_pid p) (pid_table k))
    as [[i pe] |] eqn:Hfind.
  - destruct (Z.eq_dec (prev_runtime pe) 0) as [Hz | Hnz].
    + rewrite (rl_worker_body_first_observation cfg p k i pe Hlive Hfind Hz).
      apply Hnone. reflexivity.
    + rewrite (rl_worker_body_processed cfg p k i pe Hlive Hfind Hnz).
      eexists. split.
      { simpl. rewrite (proj1 (proj2 (choose_action_keeps _ _ _ _))).
        reflexivity. }
      destruct (renice_events_safe
                  cfg p
                  (fst (choose_action
                          cfg pe
                          (cpu_delta_to_state
                             (runtime_delta (to_u64 (sum_exec_runtime p))
                                            (prev_runtime pe))) k)))
        as [Hsafe Hlen].
      split.
      * apply Forall_app. split; [exact Hsafe |].
        destruct (prev_action_valid pe) eqn:Hvalid; constructor;
          [| constructor].
        split; [apply prev_action_valid_range; exact Hvalid |].
        apply delta_reward_range, runtime_delta_range.
      * rewrite nice_writes_app, length_app.
        destruct (prev_action_valid pe); simpl; lia.
  - apply list_find_None in Hfind.
    destruct (kzalloc_ok k (kzalloc_next k)) eqn:Hok.
    + rewrite (rl_worker_body_new cfg p k Hlive Hfind Hok).
      apply Hnone. reflexivity.
    + rewrite (rl_worker_body_nomem cfg p k Hlive Hfind Hok).
      apply Hnone. reflexivity.
Qed.

Lemma for_each_process_events (cfg : params) (ps : list task_struct)
      (k : kstate) :
  exists evs : list kevent,
    klog (snd (for_each_process cfg ps k)) = klog k ++ evs /\
    Forall event_safe evs /\
    (length (nice_writes evs) <= length ps)%nat.
Proof.
  revert k. induction ps as [| p ps IH]; intros k.
  - exists []. rewrite app_nil_r.
    split; [reflexivity | split; [constructor | simpl; lia]].
  - rewrite for_each_process_cons. cbn [snd].
    destruct (rl_worker_body_events cfg p k) as (evs1 & Hlog1 & Hsafe1 & Hlen1).
    destruct (IH (snd (rl_worker_body cfg p k)))
      as (evs2 & Hlog2 & Hsafe2 & Hlen2).
    exists (evs1 ++ evs2). split; [| split].
    + rewrite Hlog2, Hlog1, app_assoc. reflexivity.
    + apply Forall_app. split; assumption.
    + rewrite nice_writes_app, length_app. simpl. lia.
Qed.

(** X23.  The log only grows, and what the worker adds to it is safe: every
    [set_user_nice] it issues sets a nice value in [[-20, 19]]; every
    [pr_info] line reports a new nice value in [[-20, 19]] that differs from
    the current one; every [q_update] it calls gets an action that indexes
    the table and a reward in [[-REWARD_MAX, 0]].  One tick issues at most
    as many [set_user_nice] calls as the process list has tasks. *)
Theorem rl_worker_log_is_safe
        (cfg : params)
        (sleeps : list (list task_struct -> list task_struct))
        (ps : list task_struct) (k : kstate) :
  (exists evs : list kevent,
      klog (snd (rl_worker cfg sleeps ps k)) = klog k ++ evs /\
      Forall event_safe evs) /\
  (exists evs : list kevent,
      klog (snd (for_each_process cfg ps k)) = klog k ++ evs /\
      Forall event_safe evs /\
      (length (nice_writes evs) <= length ps)%nat).
Proof.
  split; [| apply for_each_process_events].
  revert ps k. induction sleeps as [| host sleeps IH]; intros ps k; simpl.
  - exists []. rewrite app_nil_r. split; [reflexivity | constructor].
  - unfold kbind.
    destruct (for_each_process_events cfg ps k) as (evs1 & Hlog1 & Hsafe1 & _).
    destruct (for_each_process cfg ps k) as [ps' k1]. cbn [snd] in Hlog1.
    destruct (IH (host ps') k1) as (evs2 & Hlog2 & Hsafe2).
    exists (evs1 ++ evs2). split.
    + rewrite Hlog2, Hlog1, app_assoc. reflexivity.
    + apply Forall_app. split; assumption.
Qed.
